(** * CyberGear motor controller: CAN command encoding and retrying send

    A shallow embedding of [windows_cybergearmotortest.py] (class
    [CyberGearMotor]) and the properties stated about it.

    - Python [int] is [Z]; a payload is a [list Z] of byte values.
    - Python [float] is an IEEE-754 binary64 value, represented by the
      Standard Library's [spec_float] at precision 53 / emax 1024;
      [struct.pack('<f', x)] narrows it to binary32 (precision 24 /
      emax 128) with round-to-nearest-even.
    - The bus is an interface ([Transport]); the effects of a method
      (frames handed to the bus, sleeps, console lines) are appended to a
      trace carried in the state.
    - [self.last_positions] is a [gmap Z spec_float]. *)

From Stdlib Require Import ZArith Floats.SpecFloat.
From stdpp Require Import gmap strings.

Local Open Scope Z_scope.

(** ** Floating point *)

Module Float.

(** Python's [float]: binary64. *)
Definition prec64 : Z := 53.
Definition emax64 : Z := 1024.
(** The ['f'] format of [struct]: binary32. *)
Definition prec32 : Z := 24.
Definition emax32 : Z := 128.

Definition valid64 (x : spec_float) : bool := valid_binary prec64 emax64 x.
Definition valid32 (x : spec_float) : bool := valid_binary prec32 emax32 x.

Definition is_nan (x : spec_float) : bool :=
  match x with S754_nan => true | _ => false end.

Definition is_inf (x : spec_float) : bool :=
  match x with S754_infinity _ => true | _ => false end.

(** A float literal with an integral value, such as [2.0] or [12.0]
    (exact below 2^53). *)
Definition of_Z (n : Z) : spec_float :=
  binary_normalize prec64 emax64 n 0 false.

(** C cast [(float)x]: binary64 to binary32, round to nearest even. *)
Definition single_of_double (x : spec_float) : spec_float :=
  match x with
  | S754_finite s m e => binary_round prec32 emax32 s m e
  | _ => x
  end.

(** C cast [(double)y]: binary32 to binary64, always exact. *)
Definition double_of_single (y : spec_float) : spec_float :=
  match y with
  | S754_finite s m e => binary_round prec64 emax64 s m e
  | _ => y
  end.

Definition sign_bit (s : bool) : Z := if s then 2 ^ 31 else 0.

(** The 32-bit pattern of a binary32 value: sign, 8 exponent bits biased
    by 127, 23 fraction bits.  [spec_float] has no NaN payload; the
    pattern of Python's [float('nan')] is used. *)
Definition bits_of_single (y : spec_float) : Z :=
  match y with
  | S754_zero s => sign_bit s
  | S754_infinity s => sign_bit s + 255 * 2 ^ 23
  | S754_nan => 255 * 2 ^ 23 + 2 ^ 22
  | S754_finite s m e =>
      if 2 ^ 23 <=? Z.pos m
      then sign_bit s + (e + 150) * 2 ^ 23 + (Z.pos m - 2 ^ 23)
      else sign_bit s + Z.pos m
  end.

Definition single_of_bits (w : Z) : spec_float :=
  let s := Z.testbit w 31 in
  let ex := (w / 2 ^ 23) mod 256 in
  let fr := w mod 2 ^ 23 in
  if ex =? 0 then
    match fr with
    | Z.pos m => S754_finite s m (-149)
    | _ => S754_zero s
    end
  else if ex =? 255 then
    (if fr =? 0 then S754_infinity s else S754_nan)
  else
    match fr + 2 ^ 23 with
    | Z.pos m => S754_finite s m (ex - 150)
    | _ => S754_nan
    end.

(** Little-endian bytes of a 32-bit word, and back. *)
Definition le_bytes (w : Z) : list Z :=
  [w mod 256; (w / 2 ^ 8) mod 256; (w / 2 ^ 16) mod 256; (w / 2 ^ 24) mod 256].

Definition of_le_bytes (bs : list Z) : option Z :=
  match bs with
  | [b0; b1; b2; b3] => Some (b0 + b1 * 2 ^ 8 + b2 * 2 ^ 16 + b3 * 2 ^ 24)
  | _ => None
  end.

(** [Py_MATH_PI], the double nearest to pi (0x400921FB54442D18). *)
Definition M_PI : spec_float := S754_finite false 7074237752028440 (-51).

(** [degToRad = Py_MATH_PI / 180.0] and [math.radians(x) = x * degToRad]. *)
Definition degToRad : spec_float := SFdiv prec64 emax64 M_PI (of_Z 180).
Definition radians (x : spec_float) : spec_float := SFmul prec64 emax64 x degToRad.

End Float.

(** ** Exceptions, frames, observable events *)

(** The exceptions of the modelled code.  All are subclasses of Python's
    [Exception], so [except Exception] catches each of them. *)
Inductive exn :=
  | CanError (reason : string)        (* raised by [bus.send], [bus.shutdown] *)
  | OverflowError (reason : string)   (* raised by [struct.pack] *)
  | ValueError (reason : string)      (* raised by [can.Message] *)
  | AttributeError (reason : string)  (* a method call on [None] *)
  | Exception (reason : string).      (* raised by [__init__] *)

Inductive result (A : Type) :=
  | Ok (a : A)
  | Raise (e : exn).
Arguments Ok {A} a.
Arguments Raise {A} e.

(** [can.Message(arbitration_id=.., data=.., is_extended_id=..)]. *)
Record Message := mkMessage {
  arbitration_id : Z;
  data : list Z;
  is_extended_id : bool }.

(** The lines written by [print]. *)
Inductive line :=
  | Connected
  | SendError (retry : Z) (e : exn)
  | MotorEnabled (motor_id : Z)
  | MotorDisabled (motor_id : Z)
  | MotorStopped (motor_id : Z)
  | PositionReset (motor_id : Z)
  | PositionControlMode (motor_id : Z).

(** What a method does to its environment, in order: a call of
    [bus.send] with its outcome, a [time.sleep] (in milliseconds), a
    [print]. *)
Inductive event :=
  | Transmit (msg : Message) (err : option exn)
  | Sleep (ms : Z)
  | Output (l : line).

(** The frames handed to [bus.send], failed attempts included. *)
Fixpoint transmits (t : list event) : list Message :=
  match t with
  | [] => []
  | Transmit msg _ :: t' => msg :: transmits t'
  | _ :: t' => transmits t'
  end.

(** Python values returned by the public methods. *)
Inductive value :=
  | VNone
  | VBool (b : bool).

(** The bus: [send] accepts the frame ([None]) or raises. *)
Class Transport (B : Type) := transmit : B -> Message -> B * option exn.

(** [struct.pack('<f', x)] followed by [list(..)]: CPython's
    [PyFloat_Pack4] casts to [float] and raises [OverflowError] when a
    finite double becomes infinite. *)
Definition pack_f (x : spec_float) : result (list Z) :=
  let y := Float.single_of_double x in
  if Float.is_inf y && negb (Float.is_inf x)
  then Raise (OverflowError "float too large to pack with f format")
  else Ok (Float.le_bytes (Float.bits_of_single y)).

(** The decoder the round-trip property speaks of,
    [struct.unpack('<f', bytes)[0]]; it is not part of the controller. *)
Definition unpack_f (bs : list Z) : option spec_float :=
  w ← Float.of_le_bytes bs;
  Some (Float.double_of_single (Float.single_of_bits w)).

(** [(cmd_id << 24) | (master_id << 8) | motor_id] *)
Definition can_id (cmd_id master_id motor_id : Z) : Z :=
  Z.lor (Z.lor (Z.shiftl cmd_id 24) (Z.shiftl master_id 8)) motor_id.

(** The inverse shifts and masks of the arbitration-id layout; a
    decoder for stating the round trip, not part of the controller. *)
Definition decode_can_id (id : Z) : Z * Z * Z :=
  (Z.land (Z.shiftr id 24) 0xFF, Z.land (Z.shiftr id 8) 0xFFFF, Z.land id 0xFF).

(** ** The controller *)

Declare Scope py_scope.
Delimit Scope py_scope with py.

Section Controller.
Context {B : Type} `{!Transport B}.

(** The object's attributes, and the trace of its effects so far. *)
Record World := mkWorld {
  bus : B;
  master_id : Z;
  last_positions : gmap Z spec_float;
  trace : list event }.

Definition M (A : Type) : Type := World -> result A * World.

Definition ret {A} (a : A) : M A := fun w => (Ok a, w).

Definition bind {A C} (m : M A) (k : A -> M C) : M C := fun w =>
  match m w with
  | (Ok a, w') => k a w'
  | (Raise e, w') => (Raise e, w')
  end.

Definition lift {A} (r : result A) : M A := fun w => (r, w).

(** [try: body except Exception as e: handler e] *)
Definition try_except {A} (body : M A) (handler : exn -> M A) : M A := fun w =>
  match body w with
  | (Ok a, w') => (Ok a, w')
  | (Raise e, w') => handler e w'
  end.

Definition emit (ev : event) : M unit := fun w =>
  (Ok tt, mkWorld (bus w) (master_id w) (last_positions w) (trace w ++ [ev])).

Definition sleep (ms : Z) : M unit := emit (Sleep ms).
Definition print (l : line) : M unit := emit (Output l).

(** [self.bus.send(msg)] *)
Definition bus_send (msg : Message) : M unit := fun w =>
  let '(b', err) := transmit (bus w) msg in
  let w' := mkWorld b' (master_id w) (last_positions w)
              (trace w ++ [Transmit msg err]) in
  match err with
  | None => (Ok tt, w')
  | Some e => (Raise e, w')
  end.

(** [self.last_positions[motor_id] = x] *)
Definition set_last_position (motor_id : Z) (x : spec_float) : M unit := fun w =>
  (Ok tt, mkWorld (bus w) (master_id w) (<[motor_id := x]> (last_positions w)) (trace w)).

Definition get_master_id : M Z := fun w => (Ok (master_id w), w).

Notation "x <- m ;; k" := (bind m (fun x => k))
  (at level 100, m at next level, right associativity) : py_scope.
Notation "m ;; k" := (bind m (fun _ => k))
  (at level 100, right associativity) : py_scope.
Local Open Scope py_scope.

(** [__init__], once [can.interface.Bus(..)] has returned [b]. *)
Definition init (b : B) : World :=
  mkWorld b 0x00FD ∅ [Output Connected].

(** The body of [for attempt in range(retry)]; [Some b] is
    [return b], [None] falls through to the next iteration. *)
Definition send_attempt (msg : Message) (retry attempt : Z) : M (option bool) :=
  try_except
    (bus_send msg ;; sleep 15 ;; ret (Some true))
    (fun e =>
       if attempt =? retry - 1
       then (print (SendError retry e) ;; ret (Some false))
       else (sleep 50 ;; ret None)).

Fixpoint send_attempts (msg : Message) (retry : Z) (attempts : list Z) : M bool :=
  match attempts with
  | [] => ret false
  | attempt :: rest =>
      r <- send_attempt msg retry attempt ;;
      match r with
      | Some b => ret b
      | None => send_attempts msg retry rest
      end
  end.

(** [send_can_frame(self, cmd_id, motor_id, data, retry=3)]; [None]
    for [retry] is the call that leaves the argument out.  [data] is a
    list of bytes, as in every call of this file; [send_can_frame_full]
    covers the lists that [can.Message] refuses. *)
Definition send_can_frame (cmd_id motor_id : Z) (data : list Z)
    (retry : option Z) : M bool :=
  let retry := default 3 retry in
  self_master_id <- get_master_id ;;
  let can_id := can_id cmd_id self_master_id motor_id in
  let msg := mkMessage can_id data true in
  send_attempts msg retry (seqZ 0 retry).

Definition enable_motor (motor_id : Z) : M value :=
  let data := replicate 8 0x00 in
  send_can_frame 0x03 motor_id data None ;;
  sleep 300 ;;
  print (MotorEnabled motor_id) ;;
  ret VNone.

Definition disable_motor (motor_id : Z) : M value :=
  let data := replicate 8 0x00 in
  send_can_frame 0x04 motor_id data None ;;
  sleep 300 ;;
  print (MotorDisabled motor_id) ;;
  ret VNone.

Definition stop_motor (motor_id : Z) : M value :=
  let data := replicate 8 0x00 in
  send_can_frame 0x00 motor_id data None ;;
  sleep 100 ;;
  print (MotorStopped motor_id) ;;
  ret VNone.

Definition reset_position (motor_id : Z) : M value :=
  let data := [0x01] ++ replicate 7 0x00 in
  send_can_frame 0x06 motor_id data None ;;
  set_last_position motor_id (S754_zero false) ;;
  sleep 300 ;;
  print (PositionReset motor_id) ;;
  ret VNone.

Definition set_position_control_mode (motor_id : Z) : M value :=
  let data := [0x05; 0x70; 0x00; 0x00; 0x01; 0x00; 0x00; 0x00] in
  send_can_frame 0x12 motor_id data None ;;
  sleep 200 ;;
  print (PositionControlMode motor_id) ;;
  ret VNone.

Definition set_limit_speed (motor_id : Z) (speed_rad_s : spec_float) : M value :=
  speed_bytes <- lift (pack_f speed_rad_s) ;;
  let data := [0x17; 0x70; 0x00; 0x00] ++ speed_bytes in
  send_can_frame 0x12 motor_id data None ;;
  sleep 50 ;;
  ret VNone.

Definition set_limit_torque (motor_id : Z) (torque_nm : spec_float) : M value :=
  torque_bytes <- lift (pack_f torque_nm) ;;
  let data := [0x18; 0x70; 0x00; 0x00] ++ torque_bytes in
  send_can_frame 0x12 motor_id data None ;;
  sleep 50 ;;
  ret VNone.

Definition set_target_position (motor_id : Z) (radians : spec_float) : M value :=
  pos_bytes <- lift (pack_f radians) ;;
  let data := [0x16; 0x70; 0x00; 0x00] ++ pos_bytes in
  success <- send_can_frame 0x12 motor_id data None ;;
  (if success : bool then set_last_position motor_id radians else ret tt) ;;
  sleep 50 ;;
  ret (VBool success).

(** [move_to_degrees(self, motor_id, degrees, speed_rad_s=5.0, torque_nm=12.0)] *)
Definition move_to_degrees (motor_id : Z) (degrees : spec_float)
    (speed_rad_s torque_nm : option spec_float) : M value :=
  let speed_rad_s := default (Float.of_Z 5) speed_rad_s in
  let torque_nm := default (Float.of_Z 12) torque_nm in
  let radians := Float.radians degrees in
  set_limit_torque motor_id torque_nm ;;
  set_limit_speed motor_id speed_rad_s ;;
  set_target_position motor_id radians ;;
  ret VNone.

(** A bus whose [send] raises on every frame. *)
Definition always_fails : Prop :=
  forall (b : B) (msg : Message), (transmit b msg).2 <> None.

End Controller.

Arguments World B : clear implicits.
Arguments M B A : clear implicits.

(** ** Test transports *)

(** Fails the next [failures_left] sends, then accepts every frame. *)
Record flaky := Flaky { failures_left : nat }.

#[export] Instance flaky_transport : Transport flaky := fun b _ =>
  match failures_left b with
  | O => (b, None)
  | S n => (Flaky n, Some (CanError "bus error"))
  end.

(** Refuses every frame. *)
Inductive dead := Dead.

#[export] Instance dead_transport : Transport dead := fun b _ =>
  (b, Some (CanError "bus off")).

(** Accepts every frame. *)
Inductive healthy := Healthy.

#[export] Instance healthy_transport : Transport healthy := fun b _ => (b, None).

Notation "x <- m ;; k" := (bind m (fun x => k))
  (at level 100, m at next level, right associativity) : py_scope.
Notation "m ;; k" := (bind m (fun _ => k))
  (at level 100, right associativity) : py_scope.

(** [sent w w' msg]: between [w] and [w'] the bus was handed [msg], and
    nothing else, between one and three times (one send with the default
    number of attempts). *)
Definition sent {B : Type} (w w' : World B) (msg : Message) : Prop :=
  exists k : nat, (1 <= k <= 3)%nat /\
    transmits (trace w') = transmits (trace w) ++ replicate k msg.

(** The float [v] survives [struct.pack('<f', v)] followed by decoding,
    bit for bit. *)
Definition roundtrip_exact (v : spec_float) : Prop :=
  exists bs : list Z, pack_f v = Ok bs /\ unpack_f bs = Some v.

(** The payloads of [move_to_degrees(1, 15, 2.0, 12.0)]. *)
Definition torque_12 : list Z := [0x18; 0x70; 0x00; 0x00; 0x00; 0x00; 0x40; 0x41].
Definition speed_2 : list Z := [0x17; 0x70; 0x00; 0x00; 0x00; 0x00; 0x00; 0x40].
Definition target_15_degrees : list Z := [0x16; 0x70; 0x00; 0x00; 0x92; 0x0A; 0x86; 0x3E].

(** ** Measures on traces *)

(** How often the bus accepted a frame. *)
Fixpoint accepted (t : list event) : nat :=
  match t with
  | [] => 0
  | Transmit _ None :: t' => S (accepted t')
  | _ :: t' => accepted t'
  end.

(** Milliseconds spent in [time.sleep]. *)
Fixpoint slept (t : list event) : Z :=
  match t with
  | [] => 0
  | Sleep ms :: t' => ms + slept t'
  | _ :: t' => slept t'
  end.

(** [n] attempts that failed with [e], each followed by the 50 ms pause. *)
Definition failed_attempts (msg : Message) (e : exn) (n : nat) : list event :=
  concat (replicate n [Transmit msg (Some e); Sleep 50]).

(** What the [flaky] transport raises. *)
Definition bus_error : exn := CanError "bus error".

(** A value of a [bytes] object. *)
Definition is_byte (b : Z) : Prop := 0 <= b < 256.

(** A bus that accepts every frame. *)
Definition always_accepts {B : Type} `{!Transport B} : Prop :=
  forall (b : B) (msg : Message), (transmit b msg).2 = None.

(** [keeps motor_id m]: running [m] leaves [master_id] alone and changes
    [last_positions] at most at the key [motor_id], also when it raises. *)
Definition keeps {B : Type} {A : Type} (motor_id : Z) (m : M B A) : Prop :=
  forall w : World B,
    master_id (m w).2 = master_id w /\
    forall k : Z, k <> motor_id ->
      last_positions (m w).2 !! k = last_positions w !! k.

(** [can.Message(arbitration_id=.., data=.., is_extended_id=True)]: the
    constructor stores [bytearray(data)], which raises [ValueError] for
    a value outside 0..255. *)
Definition can_Message (arbitration_id : Z) (data : list Z) : result Message :=
  if forallb (fun b => (0 <=? b) && (b <? 256)) data
  then Ok (mkMessage arbitration_id data true)
  else Raise (ValueError "byte must be in range(0, 256)").

(** [send_can_frame] from its first line on, for any list of integers:
    the message is built before the [try], so a [ValueError] of the
    constructor leaves the method.  On a payload of bytes this is
    [send_can_frame]. *)
Definition send_can_frame_full {B : Type} `{!Transport B}
    (cmd_id motor_id : Z) (data : list Z) (retry : option Z) : M B bool :=
  let retry := default 3 retry in
  bind get_master_id (fun self_master_id =>
  let can_id := can_id cmd_id self_master_id motor_id in
  bind (lift (can_Message can_id data)) (fun msg =>
  send_attempts msg retry (seqZ 0 retry))).

(** ** The demonstration script *)

(** [str(e)] *)
Definition str (e : exn) : string :=
  match e with
  | CanError reason => reason
  | OverflowError reason => reason
  | ValueError reason => reason
  | AttributeError reason => reason
  | Exception reason => reason
  end.

(** [bus.shutdown()]: returns ([None]) or raises. *)
Class Shutdown (B : Type) := shutdown : B -> B * option exn.

#[export] Instance flaky_shutdown : Shutdown flaky := fun b => (b, None).

#[export] Instance healthy_shutdown : Shutdown healthy := fun b => (b, None).

(** The bus that refuses every frame also fails to shut down. *)
#[export] Instance dead_shutdown : Shutdown dead := fun b =>
  (b, Some (CanError "bus off")).

(** The lines printed by [main] and by [close]. *)
Inductive script_line :=
  | RuleAbove                        (* "\n" + "="*60 *)
  | RulePlain                        (* "="*60 *)
  | RuleBelow                        (* "="*60 + "\n" *)
  | Title
  | InterfaceLine (interface : string)
  | PortLine (channel : string)
  | MotorLine (motor_id : Z)
  | TestLine
  | Initialization
  | Initialized
  | MovingClockwise
  | MovingAnticlockwise
  | Returning
  | MovingTo (degrees : Z)
  | SequenceCompleted
  | ErrorReport (reason : string)
  | Troubleshooting (n : nat)        (* the heading (0) and the four hints *)
  | ShutdownSequence
  | ShutdownCompleted
  | ShutdownError (reason : string)
  | ProgramEnded
  | ConnectionClosed.                (* printed by [close] *)

(** What the script does, in order: an effect of a [CyberGearMotor]
    method or a [time.sleep] of [main], a [print] of the script,
    [traceback.print_exc()], [self.bus.shutdown()] with its outcome. *)
Inductive script_event :=
  | Device (ev : event)
  | Say (l : script_line)
  | PrintTraceback
  | BusShutdown (err : option exn).

(** The log without pauses and without the lines of the class: the frames
    handed to the bus, the lines of the script, the traceback, the
    shutdown. *)
Inductive mark :=
  | Sent (msg : Message)
  | Said (l : script_line)
  | Traced
  | Closed.

Fixpoint outline (l : list script_event) : list mark :=
  match l with
  | [] => []
  | Device (Transmit msg _) :: l' => Sent msg :: outline l'
  | Device _ :: l' => outline l'
  | Say s :: l' => Said s :: outline l'
  | PrintTraceback :: l' => Traced :: outline l'
  | BusShutdown _ :: l' => Closed :: outline l'
  end.

(** [plan] with its [i]-th frame repeated [ks !! i] times. *)
Fixpoint repeat_sent (ks : list nat) (plan : list mark) : list mark :=
  match plan with
  | [] => []
  | Sent msg :: plan' =>
      match ks with
      | k :: ks' => replicate k (Sent msg) ++ repeat_sent ks' plan'
      | [] => []
      end
  | x :: plan' => x :: repeat_sent ks plan'
  end.

Fixpoint sent_count (plan : list mark) : nat :=
  match plan with
  | [] => 0
  | Sent _ :: plan' => S (sent_count plan')
  | _ :: plan' => sent_count plan'
  end.

Declare Scope script_scope.
Delimit Scope script_scope with script.

Section Script.
Context {B : Type} `{!Transport B} `{!Shutdown B}.

(** The variable [motor] of [main] ([None] until the constructor has
    returned) and everything that happened so far.  The trace inside
    [motor] holds the events of the latest call only; [log] has them
    all. *)
Record Session := mkSession {
  motor : option (World B);
  log : list script_event }.

Definition Script (A : Type) : Type := Session -> result A * Session.

Definition sret {A} (a : A) : Script A := fun s => (Ok a, s).

Definition sbind {A C} (p : Script A) (k : A -> Script C) : Script C := fun s =>
  match p s with
  | (Ok a, s') => k a s'
  | (Raise e, s') => (Raise e, s')
  end.

Notation "x <- p ;; k" := (sbind p (fun x => k))
  (at level 100, p at next level, right associativity) : script_scope.
Notation "p ;; k" := (sbind p (fun _ => k))
  (at level 100, right associativity) : script_scope.
Local Open Scope script_scope.

Definition record (evs : list script_event) : Script unit := fun s =>
  (Ok tt, mkSession (motor s) (log s ++ evs)).

Definition say (l : script_line) : Script unit := record [Say l].

(** A [time.sleep] of the script. *)
Definition pause (ms : Z) : Script unit := record [Device (Sleep ms)].

(** What a method call on [None] raises. *)
Definition no_motor : exn :=
  AttributeError "'NoneType' object has no attribute".

(** [motor = CyberGearMotor(..)]: [opened] is what
    [can.interface.Bus(..)] does in [__init__], it returns a bus or
    raises; [__init__] raises [Exception] with its own message in the
    second case and [motor] keeps its value. *)
Definition construct (opened : B + exn) : Script unit := fun s =>
  match opened with
  | inl b =>
      (Ok tt, mkSession (Some (init b)) (log s ++ map Device (trace (init b))))
  | inr e =>
      (Raise (Exception ("Failed to connect to CAN bus: " ++ str e)), s)
  end.

(** A method call [motor.m(..)]. *)
Definition call {A} (m : M B A) : Script A := fun s =>
  match motor s with
  | None => (Raise no_motor, s)
  | Some w =>
      let '(r, w') := m (mkWorld (bus w) (master_id w) (last_positions w) []) in
      (r, mkSession (Some w') (log s ++ map Device (trace w')))
  end.

(** [try: body except Exception as e: handler e] *)
Definition stry {A} (body : Script A) (handler : exn -> Script A) : Script A := fun s =>
  match body s with
  | (Ok a, s') => (Ok a, s')
  | (Raise e, s') => handler e s'
  end.

(** [try: body finally: cleanup] *)
Definition sfinally {A} (body : Script A) (cleanup : Script unit) : Script A := fun s =>
  let '(r, s') := body s in
  match cleanup s' with
  | (Ok _, s'') => (r, s'')
  | (Raise e, s'') => (Raise e, s'')
  end.

(** [if motor:] *)
Definition motor_is_set : Script bool := fun s =>
  (Ok (match motor s with Some _ => true | None => false end), s).

(** [motor.close()]: every constructed object has the attribute [bus];
    when [self.bus.shutdown()] raises, the line of [close] is not
    printed and the exception goes to the caller. *)
Definition close : Script value := fun s =>
  match motor s with
  | None => (Raise no_motor, s)
  | Some w =>
      let '(b', err) := shutdown (bus w) in
      let s' := mkSession (Some (mkWorld b' (master_id w) (last_positions w) (trace w)))
                  (log s ++ [BusShutdown err]) in
      match err with
      | Some e => (Raise e, s')
      | None => (say ConnectionClosed ;; sret VNone) s'
      end
  end.

Definition INTERFACE : string := "slcan".
Definition CHANNEL : string := "COM16".
Definition MOTOR_ID : Z := 1.
Definition SPEED : spec_float := Float.of_Z 2.
Definition MAX_TORQUE : spec_float := Float.of_Z 12.

Definition header : list script_event :=
  [Say RuleAbove; Say Title; Say RulePlain; Say (InterfaceLine INTERFACE);
   Say (PortLine CHANNEL); Say (MotorLine MOTOR_ID); Say TestLine; Say RuleBelow].

Definition footer : list script_event :=
  [Say RuleAbove; Say ProgramEnded; Say RulePlain].

(** The [except Exception as e] clause of [main]. *)
Definition error_report (reason : string) : list script_event :=
  [Say (ErrorReport reason); Say (Troubleshooting 0); Say (Troubleshooting 1);
   Say (Troubleshooting 2); Say (Troubleshooting 3); Say (Troubleshooting 4);
   PrintTraceback].

(** The [try] block of [main] after the constructor. *)
Definition test_sequence : Script unit :=
  say Initialization ;;
  call (enable_motor MOTOR_ID) ;;
  pause 500 ;;
  call (reset_position MOTOR_ID) ;;
  pause 500 ;;
  call (set_position_control_mode MOTOR_ID) ;;
  pause 500 ;;
  say Initialized ;;
  say MovingClockwise ;;
  call (move_to_degrees MOTOR_ID (Float.of_Z 15) (Some SPEED) (Some MAX_TORQUE)) ;;
  say (MovingTo 15) ;;
  pause 3000 ;;
  say Returning ;;
  call (move_to_degrees MOTOR_ID (Float.of_Z 0) (Some SPEED) (Some MAX_TORQUE)) ;;
  say (MovingTo 0) ;;
  pause 3000 ;;
  say MovingAnticlockwise ;;
  call (move_to_degrees MOTOR_ID (Float.of_Z (-15)) (Some SPEED) (Some MAX_TORQUE)) ;;
  say (MovingTo (-15)) ;;
  pause 3000 ;;
  say Returning ;;
  call (move_to_degrees MOTOR_ID (Float.of_Z 0) (Some SPEED) (Some MAX_TORQUE)) ;;
  say (MovingTo 0) ;;
  pause 3000 ;;
  say SequenceCompleted.

(** The [try] statement under [if motor:] in the [finally] block. *)
Definition shutdown_sequence : Script unit :=
  stry
    (say ShutdownSequence ;;
     call (stop_motor MOTOR_ID) ;;
     pause 300 ;;
     call (disable_motor MOTOR_ID) ;;
     pause 300 ;;
     close ;;
     say ShutdownCompleted)
    (fun shutdown_error => say (ShutdownError (str shutdown_error))).

(** [main], started with [motor = None] and an empty log.  Exceptions
    are those of [exn]; [KeyboardInterrupt] arrives asynchronously and
    is outside this model. *)
Definition main (opened : B + exn) : result unit * Session :=
  (record header ;;
   sfinally
     (stry
        (construct opened ;; test_sequence)
        (fun e => record (error_report (str e))))
     ((has_motor <- motor_is_set ;;
       if has_motor : bool then shutdown_sequence else sret tt) ;;
      record footer))
    (mkSession None []).

End Script.

Arguments Session B : clear implicits.
Arguments Script B A : clear implicits.

Notation "x <- p ;; k" := (sbind p (fun x => k))
  (at level 100, p at next level, right associativity) : script_scope.
Notation "p ;; k" := (sbind p (fun _ => k))
  (at level 100, right associativity) : script_scope.

(** The frames of [main], for motor 1 under controller address 0x00FD. *)
Definition enable_frame : Message := mkMessage 0x0300FD01 [0; 0; 0; 0; 0; 0; 0; 0] true.
Definition reset_frame : Message := mkMessage 0x0600FD01 [0x01; 0; 0; 0; 0; 0; 0; 0] true.
Definition mode_frame : Message :=
  mkMessage 0x1200FD01 [0x05; 0x70; 0x00; 0x00; 0x01; 0x00; 0x00; 0x00] true.
Definition torque_frame : Message := mkMessage 0x1200FD01 torque_12 true.
Definition speed_frame : Message := mkMessage 0x1200FD01 speed_2 true.
Definition target_frame (value : list Z) : Message :=
  mkMessage 0x1200FD01 ([0x16; 0x70; 0x00; 0x00] ++ value) true.
Definition stop_frame : Message := mkMessage 0x0000FD01 [0; 0; 0; 0; 0; 0; 0; 0] true.
Definition disable_frame : Message := mkMessage 0x0400FD01 [0; 0; 0; 0; 0; 0; 0; 0] true.

(** One [move_to_degrees] of [main]: torque limit, speed limit, target. *)
Definition move_plan (value : list Z) : list mark :=
  [Sent torque_frame; Sent speed_frame; Sent (target_frame value)].

(** What follows [bus.shutdown()]: the two closing lines, or the error
    line when it raised. *)
Definition shutdown_tail (err : option exn) : list mark :=
  Closed ::
  match err with
  | None => [Said ConnectionClosed; Said ShutdownCompleted]
  | Some e => [Said (ShutdownError (str e))]
  end.

(** The [try] block after the constructor. *)
Definition test_plan : list mark :=
  [Said Initialization;
   Sent enable_frame; Sent reset_frame; Sent mode_frame;
   Said Initialized; Said MovingClockwise] ++
  move_plan [0x92; 0x0A; 0x86; 0x3E] ++
  [Said (MovingTo 15); Said Returning] ++
  move_plan [0x00; 0x00; 0x00; 0x00] ++
  [Said (MovingTo 0); Said MovingAnticlockwise] ++
  move_plan [0x92; 0x0A; 0x86; 0xBE] ++
  [Said (MovingTo (-15)); Said Returning] ++
  move_plan [0x00; 0x00; 0x00; 0x00] ++
  [Said (MovingTo 0); Said SequenceCompleted].

(** The shutdown up to [bus.shutdown()]. *)
Definition stop_plan : list mark :=
  [Said ShutdownSequence; Sent stop_frame; Sent disable_frame].

(** What [main] does once the adapter is open; [err] is what
    [bus.shutdown()] did. *)
Definition main_plan (err : option exn) : list mark :=
  outline header ++ test_plan ++ stop_plan ++ shutdown_tail err ++ outline footer.

(** [sends P m frames]: started under controller address 0x00FD, [m]
    returns, keeps that address, and hands the bus the [frames] in order,
    the [i]-th of them [k_i] times with [P k_i]. *)
Definition sends {B : Type} {A : Type} (P : nat -> Prop) (m : M B A)
    (frames : list Message) : Prop :=
  forall w : World B,
    master_id w = 0x00FD ->
    exists (a : A) (w' : World B) (ks : list nat),
      m w = (Ok a, w') /\
      master_id w' = 0x00FD /\
      length ks = length frames /\
      Forall P ks /\
      transmits (trace w') = transmits (trace w) ++ concat (zip_with replicate ks frames).

(** The same for a piece of the script and its outline; the script
    has a motor before and after. *)
Definition plays {B : Type} `{!Transport B} `{!Shutdown B} {A : Type}
    (P : nat -> Prop) (p : Script B A) (plan : list mark) : Prop :=
  forall (s : Session B) (w : World B),
    motor s = Some w ->
    master_id w = 0x00FD ->
    exists (a : A) (s' : Session B) (w' : World B) (ks : list nat),
      p s = (Ok a, s') /\
      motor s' = Some w' /\
      master_id w' = 0x00FD /\
      length ks = sent_count plan /\
      Forall P ks /\
      outline (log s') = outline (log s) ++ repeat_sent ks plan.

(** A piece that returns, with an outline that depends on what
    [bus.shutdown()] did on some state [b] of the bus. *)
Definition settles {B : Type} `{!Transport B} `{!Shutdown B} {A : Type}
    (P : nat -> Prop) (p : Script B A) (plan : option exn -> list mark) : Prop :=
  forall (s : Session B) (w : World B),
    motor s = Some w ->
    master_id w = 0x00FD ->
    exists (a : A) (s' : Session B) (w' : World B) (ks : list nat) (b : B),
      p s = (Ok a, s') /\
      motor s' = Some w' /\
      master_id w' = 0x00FD /\
      length ks = sent_count (plan (shutdown b).2) /\
      Forall P ks /\
      outline (log s') = outline (log s) ++ repeat_sent ks (plan (shutdown b).2).

(** [bus.shutdown()] always returns. *)
Definition shutdown_returns {B : Type} `{!Shutdown B} : Prop :=
  forall b : B, (shutdown b).2 = None.

(** ** The retrying send *)

Lemma transmits_app (t1 t2 : list event) :
  transmits (t1 ++ t2) = transmits t1 ++ transmits t2.
Proof.
  induction t1 as [|ev t1 IH]; [reflexivity|].
  destruct ev; simpl; rewrite IH; reflexivity.
Qed.

Section SendFacts.
Context {B : Type} `{!Transport B}.

(** One iteration, by the outcome of [bus.send]. *)
Lemma send_attempt_eq (msg : Message) (retry attempt : Z) (w : World B) :
  send_attempt msg retry attempt w =
  let b' := (transmit (bus w) msg).1 in
  match (transmit (bus w) msg).2 with
  | None =>
      (Ok (Some true),
       mkWorld b' (master_id w) (last_positions w)
         (trace w ++ [Transmit msg None; Sleep 15]))
  | Some e =>
      if attempt =? retry - 1
      then (Ok (Some false),
            mkWorld b' (master_id w) (last_positions w)
              (trace w ++ [Transmit msg (Some e); Output (SendError retry e)]))
      else (Ok None,
            mkWorld b' (master_id w) (last_positions w)
              (trace w ++ [Transmit msg (Some e); Sleep 50]))
  end.
Proof.
  unfold send_attempt, try_except, bind, bus_send, sleep, print, emit, ret.
  destruct (transmit (bus w) msg) as [b' [e|]]; simpl.
  - destruct (attempt =? retry - 1); simpl; rewrite <- app_assoc; reflexivity.
  - rewrite <- app_assoc; reflexivity.
Qed.

(** Whatever the bus does, the loop returns a boolean, hands the same
    frame to the bus between once and [length attempts] times, and
    leaves the attributes alone. *)
Lemma send_attempts_frames (msg : Message) (retry : Z) (attempts : list Z) (w : World B) :
  exists (b : bool) (w' : World B) (k : nat),
    send_attempts msg retry attempts w = (Ok b, w') /\
    (k <= length attempts)%nat /\
    (attempts <> [] -> (1 <= k)%nat) /\
    transmits (trace w') = transmits (trace w) ++ replicate k msg /\
    master_id w' = master_id w /\
    last_positions w' = last_positions w.
Proof.
  revert w. induction attempts as [|attempt rest IH]; intros w.
  - exists false, w, 0%nat. simpl. rewrite app_nil_r. repeat split; auto; congruence.
  - cbn [send_attempts]. unfold bind at 1. rewrite send_attempt_eq. cbv zeta.
    destruct (transmit (bus w) msg) as [b' [e|]]; cbn [fst snd].
    + destruct (attempt =? retry - 1).
      * eexists false, _, 1%nat. unfold ret. split; [reflexivity|].
        cbn [trace master_id last_positions length]. rewrite transmits_app.
        repeat split; auto; lia.
      * match goal with |- context [send_attempts _ _ _ ?w1] =>
          destruct (IH w1) as (b & w' & k & Hrun & Hle & _ & Htr & Hm & Hl) end.
        exists b, w', (S k). split; [exact Hrun|].
        cbn [trace master_id last_positions] in Htr, Hm, Hl.
        rewrite transmits_app, <- app_assoc in Htr.
        cbn [length]. repeat split; auto; lia.
    + eexists true, _, 1%nat. unfold ret. split; [reflexivity|].
      cbn [trace master_id last_positions length]. rewrite transmits_app.
      repeat split; auto; lia.
Qed.

(** The same for [send_can_frame]: the frame carries the arbitration id
    built from the three fields, the payload as given, and the
    extended-id flag. *)
Lemma send_can_frame_frames (cmd_id motor_id : Z) (data : list Z)
    (retry : option Z) (w : World B) :
  exists (b : bool) (w' : World B) (k : nat),
    send_can_frame cmd_id motor_id data retry w = (Ok b, w') /\
    (Z.of_nat k <= Z.max 0 (default 3 retry)) /\
    (0 < default 3 retry -> (1 <= k)%nat) /\
    transmits (trace w') = transmits (trace w) ++
      replicate k (mkMessage (can_id cmd_id (master_id w) motor_id) data true) /\
    master_id w' = master_id w /\
    last_positions w' = last_positions w.
Proof.
  unfold send_can_frame, bind, get_master_id.
  destruct (send_attempts_frames
              (mkMessage (can_id cmd_id (master_id w) motor_id) data true)
              (default 3 retry) (seqZ 0 (default 3 retry)) w)
    as (b & w' & k & Hrun & Hle & Hpos & Htr & Hm & Hl).
  exists b, w', k. rewrite length_seqZ in Hle.
  repeat split; auto; [lia|].
  intros Hr. apply Hpos. rewrite seqZ_cons by lia. discriminate.
Qed.

Lemma send_attempts_always_fails (msg : Message) (retry : Z) :
  always_fails ->
  forall (len : nat) (k : Z) (w : World B),
    k + Z.of_nat len = retry ->
    exists w' : World B,
      send_attempts msg retry (seqZ k (Z.of_nat len)) w = (Ok false, w') /\
      length (transmits (trace w')) = (length (transmits (trace w)) + len)%nat.
Proof.
  intros Hdead. induction len as [|len IH]; intros k w Hk.
  - exists w. split; [reflexivity | lia].
  - rewrite seqZ_cons by lia. cbn [send_attempts]. unfold bind at 1.
    rewrite send_attempt_eq. cbv zeta.
    specialize (Hdead (bus w) msg).
    destruct (transmit (bus w) msg) as [b' [e|]]; cbn [fst snd] in *; [|congruence].
    destruct (Z.eqb_spec k (retry - 1)) as [Hlast|Hmore].
    + assert (len = 0%nat) by lia. subst len.
      eexists. unfold ret. split; [reflexivity|].
      cbn [trace]. rewrite transmits_app, length_app. simpl. lia.
    + replace (Z.pred (Z.of_nat (S len))) with (Z.of_nat len) by lia.
      match goal with |- context [send_attempts _ _ _ ?w1] =>
        destruct (IH (Z.succ k) w1) as (w' & Hrun & Hcount); [lia|] end.
      exists w'. split; [exact Hrun|].
      rewrite Hcount. cbn [trace]. rewrite transmits_app, length_app. simpl. lia.
Qed.

End SendFacts.

(** On the transport that fails [N] times: the loop succeeds exactly when
    it has more than [N] attempts, after [min (N + 1) len] calls. *)
Lemma send_attempts_flaky (msg : Message) (retry : Z) :
  forall (len : nat) (k : Z) (N : nat) (w : World flaky),
    bus w = Flaky N ->
    k + Z.of_nat len = retry ->
    exists w' : World flaky,
      send_attempts msg retry (seqZ k (Z.of_nat len)) w = (Ok (N <? len)%nat, w') /\
      length (transmits (trace w')) =
        (length (transmits (trace w)) + Nat.min (S N) len)%nat.
Proof.
  induction len as [|len IH]; intros k N w Hbus Hk.
  - exists w. split; [reflexivity | lia].
  - rewrite seqZ_cons by lia. cbn [send_attempts]. unfold bind at 1.
    rewrite send_attempt_eq. cbv zeta. rewrite Hbus.
    unfold transmit, flaky_transport. cbn [failures_left].
    destruct N as [|N]; cbn [fst snd].
    + eexists. unfold ret. split; [reflexivity|].
      cbn [trace]. rewrite transmits_app, length_app. simpl. lia.
    + destruct (Z.eqb_spec k (retry - 1)) as [Hlast|Hmore].
      * assert (len = 0%nat) by lia. subst len.
        eexists. unfold ret. split; [reflexivity|].
        cbn [trace]. rewrite transmits_app, length_app. simpl. lia.
      * replace (Z.pred (Z.of_nat (S len))) with (Z.of_nat len) by lia.
        match goal with |- context [send_attempts _ _ _ ?w1] =>
          destruct (IH (Z.succ k) N w1) as (w' & Hrun & Hcount);
            [reflexivity | lia |] end.
        exists w'. split; [exact Hrun|].
        rewrite Hcount. cbn [trace]. rewrite transmits_app, length_app. simpl. lia.
Qed.

(** X3. With no attempts to make ([retry] zero or negative, where
    [range(retry)] is empty) nothing is sent and the answer is [False]. *)
Lemma send_can_frame_no_attempts {B : Type} `{!Transport B}
    (retry cmd_id motor_id : Z) (data : list Z) (w : World B) :
  retry <= 0 ->
  send_can_frame cmd_id motor_id data (Some retry) w = (Ok false, w).
Proof.
  intros Hr. unfold send_can_frame, bind, get_master_id.
  change (default 3 (Some retry)) with retry.
  rewrite seqZ_nil by lia. reflexivity.
Qed.

(** C1. On a transport that fails exactly [N] times and then succeeds,
    [send_can_frame] with more than [N] attempts returns [True] after
    exactly [N + 1] calls of [bus.send]; with at most [N] attempts (a
    count, so not negative) it returns [False] after exactly as many calls
    as it has attempts.  The number of attempts is 3 when [retry] is left
    out. *)
Theorem send_can_frame_flaky (N : nat) (retry : option Z)
    (cmd_id motor_id : Z) (data : list Z) (w : World flaky) :
  bus w = Flaky N ->
  let max_attempts := default 3 retry in
  let r := (send_can_frame cmd_id motor_id data retry w).1 in
  let w' := (send_can_frame cmd_id motor_id data retry w).2 in
  let calls := Z.of_nat (length (transmits (trace w'))) -
               Z.of_nat (length (transmits (trace w))) in
  (Z.of_nat N < max_attempts -> r = Ok true /\ calls = Z.of_nat N + 1) /\
  (0 <= max_attempts <= Z.of_nat N -> r = Ok false /\ calls = max_attempts) /\
  send_can_frame cmd_id motor_id data None w =
    send_can_frame cmd_id motor_id data (Some 3) w.
Proof.
  intros Hbus max_attempts. cbv zeta.
  unfold send_can_frame, bind, get_master_id. fold max_attempts.
  set (msg := mkMessage _ _ _).
  split; [|split; [|reflexivity]]; intros Hr.
  - destruct (send_attempts_flaky msg max_attempts (Z.to_nat max_attempts) 0 N w Hbus)
      as (w' & Hrun & Hcount); [lia|].
    rewrite Z2Nat.id in Hrun by lia. rewrite Hrun. cbn [fst snd].
    split.
    + f_equal. apply Nat.ltb_lt. lia.
    + rewrite Hcount. lia.
  - destruct (send_attempts_flaky msg max_attempts (Z.to_nat max_attempts) 0 N w Hbus)
      as (w' & Hrun & Hcount); [lia|].
    rewrite Z2Nat.id in Hrun by lia. rewrite Hrun. cbn [fst snd].
    split.
    + f_equal. apply Nat.ltb_ge. lia.
    + rewrite Hcount. lia.
Qed.

Lemma send_can_frame_flaky_witness :
  (send_can_frame 0x03 1 (replicate 8 0) None (init (Flaky 2))).1 = Ok true /\
  (send_can_frame 0x03 1 (replicate 8 0) (Some 2) (init (Flaky 2))).1 = Ok false.
Proof.
  split.
  - apply (send_can_frame_flaky 2 None 0x03 1 (replicate 8 0) (init (Flaky 2)) eq_refl).
    simpl. lia.
  - apply (send_can_frame_flaky 2 (Some 2) 0x03 1 (replicate 8 0) (init (Flaky 2)) eq_refl).
    simpl. lia.
Defined.

(** C8. On a transport whose [send] raises every time, [send_can_frame]
    returns [False] (a normal return: the exception does not leave the
    method) after exactly [retry] calls of [bus.send]. *)
Theorem send_can_frame_always_fails {B : Type} `{!Transport B}
    (retry : option Z) (cmd_id motor_id : Z) (data : list Z) (w : World B) :
  always_fails ->
  0 <= default 3 retry ->
  exists w' : World B,
    send_can_frame cmd_id motor_id data retry w = (Ok false, w') /\
    Z.of_nat (length (transmits (trace w'))) =
      Z.of_nat (length (transmits (trace w))) + default 3 retry.
Proof.
  intros Hdead Hr. unfold send_can_frame, bind, get_master_id.
  set (msg := mkMessage _ _ _).
  destruct (send_attempts_always_fails msg (default 3 retry) Hdead
              (Z.to_nat (default 3 retry)) 0 w) as (w' & Hrun & Hcount); [lia|].
  rewrite Z2Nat.id in Hrun by lia.
  exists w'. split; [exact Hrun | rewrite Hcount; lia].
Qed.

Lemma dead_always_fails : always_fails (B := dead).
Proof. intros b msg. discriminate. Qed.

Lemma send_can_frame_always_fails_witness :
  exists w' : World dead,
    send_can_frame 0x04 1 (replicate 8 0) None (init Dead) = (Ok false, w') /\
    Z.of_nat (length (transmits (trace w'))) =
      Z.of_nat (length (transmits (trace (init Dead)))) + 3.
Proof.
  apply (send_can_frame_always_fails None 0x04 1 (replicate 8 0) (init Dead)
           dead_always_fails).
  simpl. lia.
Defined.

(** ** Binary32 encoding *)

Section FloatFacts.
Import Float.

Lemma digits2_pos_bounds (p : positive) :
  2 ^ (Z.pos (digits2_pos p) - 1) <= Z.pos p < 2 ^ Z.pos (digits2_pos p).
Proof.
  induction p as [p IH|p IH|]; cbn [digits2_pos]; [| |simpl; lia].
  - rewrite Pos2Z.inj_succ. change (Z.pos p~1) with (2 * Z.pos p + 1).
    replace (Z.succ (Z.pos (digits2_pos p)) - 1) with (Z.succ (Z.pos (digits2_pos p) - 1)) by lia.
    rewrite !Z.pow_succ_r by lia. lia.
  - rewrite Pos2Z.inj_succ. change (Z.pos p~0) with (2 * Z.pos p).
    replace (Z.succ (Z.pos (digits2_pos p)) - 1) with (Z.succ (Z.pos (digits2_pos p) - 1)) by lia.
    rewrite !Z.pow_succ_r by lia. lia.
Qed.

Lemma digits2_pos_shift (m k : positive) :
  digits2_pos (Pos.iter xO m k) = (digits2_pos m + k)%positive.
Proof.
  induction k as [|k IH] using Pos.peano_ind.
  - simpl. lia.
  - rewrite Pos.iter_succ. cbn [digits2_pos]. rewrite IH. lia.
Qed.

Lemma iter_pos_iter {A : Type} (f : A -> A) (n : positive) (x : A) :
  SpecFloat.iter_pos f n x = Pos.iter f x n.
Proof.
  revert x. induction n as [n IH|n IH|]; intros x; cbn [SpecFloat.iter_pos Pos.iter].
  - rewrite !IH, <- !Pos.iter_swap. reflexivity.
  - rewrite !IH. reflexivity.
  - reflexivity.
Qed.

Lemma shr_shift_exact (m k : positive) :
  SpecFloat.iter_pos shr_1 k (Build_shr_record (Z.pos (Pos.iter xO m k)) false false) =
  Build_shr_record (Z.pos m) false false.
Proof.
  rewrite iter_pos_iter. revert m.
  induction k as [|k IH] using Pos.peano_ind; intros m.
  - reflexivity.
  - rewrite Pos.iter_succ_r, Pos.iter_succ. cbn [shr_1 orb]. apply IH.
Qed.

(** What validity says about a finite binary32 value. *)
Lemma valid32_finite (s : bool) (m : positive) (e : Z) :
  valid32 (S754_finite s m e) = true ->
  Z.max (Z.pos (digits2_pos m) + e - 24) (-149) = e /\ e <= 104.
Proof.
  unfold valid32, valid_binary, bounded, canonical_mantissa, fexp, emin, prec32, emax32.
  intros H. apply andb_prop in H as [H1 H2].
  apply Z.eqb_eq in H1. apply Z.leb_le in H2. lia.
Qed.

(** Rounding an exact mantissa that is already canonical for the format. *)
Lemma binary_round_aux_canonical (prec emax : Z) (s : bool) (m : positive) (e : Z) :
  fexp prec emax (Z.pos (digits2_pos m) + e) = e ->
  e <= emax - prec ->
  binary_round_aux prec emax s (Z.pos m) e loc_Exact = S754_finite s m e.
Proof.
  intros Hc He. unfold binary_round_aux, shr_fexp. cbn [Zdigits2 shr_record_of_loc].
  rewrite Hc, Z.sub_diag. cbn [shr shr_m loc_of_shr_record round_nearest_even Zdigits2].
  rewrite Hc, Z.sub_diag. cbn [shr shr_m].
  apply Z.leb_le in He. rewrite He. reflexivity.
Qed.

(** Rounding a mantissa padded with [k] zero bits drops the padding. *)
Lemma binary_round_aux_padded (prec emax : Z) (s : bool) (m k : positive) (e : Z) :
  fexp prec emax (Z.pos (digits2_pos m) + e) = e ->
  e <= emax - prec ->
  binary_round_aux prec emax s (Z.pos (Pos.iter xO m k)) (e - Z.pos k) loc_Exact =
  S754_finite s m e.
Proof.
  intros Hc He. unfold binary_round_aux, shr_fexp at 1.
  cbn [Zdigits2 shr_record_of_loc]. rewrite digits2_pos_shift, Pos2Z.inj_add.
  replace (Z.pos (digits2_pos m) + Z.pos k + (e - Z.pos k))
    with (Z.pos (digits2_pos m) + e) by lia.
  rewrite Hc. replace (e - (e - Z.pos k)) with (Z.pos k) by lia.
  cbn [shr]. rewrite shr_shift_exact.
  replace (e - Z.pos k + Z.pos k) with e by lia.
  cbn [shr_m loc_of_shr_record round_nearest_even].
  unfold shr_fexp. cbn [Zdigits2 shr_record_of_loc].
  rewrite Hc, Z.sub_diag. cbn [shr shr_m].
  apply Z.leb_le in He. rewrite He. reflexivity.
Qed.

(** Widening a binary32 value pads the mantissa to 53 bits. *)
Lemma double_of_single_finite (s : bool) (m : positive) (e : Z) :
  valid32 (S754_finite s m e) = true ->
  exists k : positive,
    double_of_single (S754_finite s m e) =
      S754_finite s (Pos.iter xO m k) (e - Z.pos k).
Proof.
  intros Hv. apply valid32_finite in Hv as [Hc He].
  destruct (53 - Z.pos (digits2_pos m)) as [|k|k] eqn:Hk; try lia.
  exists k.
  unfold double_of_single, binary_round, shl_align.
  replace (fexp prec64 emax64 (Z.pos (digits2_pos m) + e) - e) with (Z.neg k)
    by (unfold fexp, emin, prec64, emax64; lia).
  replace (fexp prec64 emax64 (Z.pos (digits2_pos m) + e)) with (e - Z.pos k)
    by (unfold fexp, emin, prec64, emax64; lia).
  apply binary_round_aux_canonical.
  - rewrite digits2_pos_shift, Pos2Z.inj_add.
    unfold fexp, emin, prec64, emax64. lia.
  - unfold prec64, emax64. lia.
Qed.

(** Narrowing the widened value gives the binary32 value back. *)
Lemma single_of_double_of_single (y : spec_float) :
  valid32 y = true ->
  single_of_double (double_of_single y) = y.
Proof.
  destruct y as [s|s| |s m e]; try reflexivity.
  intros Hv. destruct (double_of_single_finite s m e Hv) as (k & ->).
  apply valid32_finite in Hv as [Hc He].
  assert (Hf : fexp prec32 emax32 (Z.pos (digits2_pos m) + e) = e)
    by (unfold fexp, emin, prec32, emax32; lia).
  unfold single_of_double, binary_round, shl_align.
  rewrite digits2_pos_shift, Pos2Z.inj_add.
  replace (Z.pos (digits2_pos m) + Z.pos k + (e - Z.pos k))
    with (Z.pos (digits2_pos m) + e) by lia.
  rewrite Hf. replace (e - (e - Z.pos k)) with (Z.pos k) by lia.
  apply binary_round_aux_padded; [exact Hf | unfold prec32, emax32; lia].
Qed.

Lemma testbit_31 (s : bool) (r : Z) :
  0 <= r < 2 ^ 31 -> Z.testbit (sign_bit s + r) 31 = s.
Proof.
  intros Hr. rewrite Z.testbit_odd, Z.shiftr_div_pow2 by lia.
  unfold sign_bit. destruct s.
  - replace ((2 ^ 31 + r) / 2 ^ 31) with 1; [reflexivity|].
    apply Z.div_unique with (r := r); lia.
  - rewrite Z.add_0_l, Z.div_small by lia. reflexivity.
Qed.

Lemma bits_of_single_range (y : spec_float) :
  valid32 y = true -> 0 <= bits_of_single y < 2 ^ 32.
Proof.
  destruct y as [s|s| |s m e]; intros Hv; cbn [bits_of_single].
  - unfold sign_bit; destruct s; lia.
  - unfold sign_bit; destruct s; lia.
  - lia.
  - apply valid32_finite in Hv as [Hc He].
    pose proof (digits2_pos_bounds m) as Hm.
    destruct (Z.leb_spec (2 ^ 23) (Z.pos m)) as [Hn|Hn].
    + assert (Z.pos (digits2_pos m) = 24).
      { assert (Z.pos (digits2_pos m) <= 24) by lia.
        assert (23 < Z.pos (digits2_pos m)); [|lia].
        apply (Z.pow_lt_mono_r_iff 2); lia. }
      replace (Z.pos (digits2_pos m)) with 24 in Hm by lia.
      unfold sign_bit; destruct s; lia.
    + unfold sign_bit; destruct s; lia.
Qed.

Lemma single_of_bits_of_single (y : spec_float) :
  valid32 y = true -> is_nan y = false ->
  single_of_bits (bits_of_single y) = y.
Proof.
  destruct y as [s|s| |s m e]; intros Hv Hn; try discriminate.
  - destruct s; reflexivity.
  - destruct s; reflexivity.
  - apply valid32_finite in Hv as [Hc He].
    pose proof (digits2_pos_bounds m) as Hm.
    cbn [bits_of_single]. unfold single_of_bits.
    destruct (Z.leb_spec (2 ^ 23) (Z.pos m)) as [Hnorm|Hsub].
    + assert (Hd : Z.pos (digits2_pos m) = 24).
      { assert (Z.pos (digits2_pos m) <= 24) by lia.
        assert (23 < Z.pos (digits2_pos m)); [|lia].
        apply (Z.pow_lt_mono_r_iff 2); lia. }
      rewrite Hd in Hm.
      rewrite <- Z.add_assoc, testbit_31 by lia.
      assert (Hex : (sign_bit s + ((e + 150) * 2 ^ 23 + (Z.pos m - 2 ^ 23))) / 2 ^ 23 mod 256 = e + 150).
      { unfold sign_bit; destruct s; change (2 ^ 31) with (256 * 2 ^ 23).
        - replace (256 * 2 ^ 23 + ((e + 150) * 2 ^ 23 + (Z.pos m - 2 ^ 23)))
            with ((Z.pos m - 2 ^ 23) + (256 + (e + 150)) * 2 ^ 23) by lia.
          rewrite Z.div_add, Z.div_small by lia.
          rewrite Z.add_0_l, Z.add_comm, Z.add_mod, Z.mod_same, Z.add_0_r, Z.mod_mod by lia.
          apply Z.mod_small; lia.
        - replace (0 + ((e + 150) * 2 ^ 23 + (Z.pos m - 2 ^ 23)))
            with ((Z.pos m - 2 ^ 23) + (e + 150) * 2 ^ 23) by lia.
          rewrite Z.div_add, Z.div_small by lia.
          apply Z.mod_small; lia. }
      assert (Hfr : (sign_bit s + ((e + 150) * 2 ^ 23 + (Z.pos m - 2 ^ 23))) mod 2 ^ 23 = Z.pos m - 2 ^ 23).
      { replace (sign_bit s + ((e + 150) * 2 ^ 23 + (Z.pos m - 2 ^ 23)))
          with ((Z.pos m - 2 ^ 23) + ((if s then 256 else 0) + (e + 150)) * 2 ^ 23)
          by (unfold sign_bit; destruct s; lia).
        rewrite Z.mod_add by lia. apply Z.mod_small; lia. }
      rewrite Hex, Hfr.
      destruct (Z.eqb_spec (e + 150) 0); [lia|].
      destruct (Z.eqb_spec (e + 150) 255); [lia|].
      replace (Z.pos m - 2 ^ 23 + 2 ^ 23) with (Z.pos m) by lia.
      f_equal. lia.
    + assert (He149 : e = -149).
      { assert (Z.pos (digits2_pos m) <= 23); [|lia].
        assert (Z.pos (digits2_pos m) - 1 < 23); [|lia].
        apply (Z.pow_lt_mono_r_iff 2); lia. }
      rewrite testbit_31 by lia.
      assert (Hex : (sign_bit s + Z.pos m) / 2 ^ 23 mod 256 = 0).
      { unfold sign_bit; destruct s; change (2 ^ 31) with (256 * 2 ^ 23).
        - rewrite Z.add_comm, Z.div_add, Z.div_small by lia. reflexivity.
        - rewrite Z.add_0_l, Z.div_small by lia. reflexivity. }
      assert (Hfr : (sign_bit s + Z.pos m) mod 2 ^ 23 = Z.pos m).
      { unfold sign_bit; destruct s; change (2 ^ 31) with (256 * 2 ^ 23).
        - rewrite Z.add_comm, Z.mod_add by lia. apply Z.mod_small; lia.
        - rewrite Z.add_0_l. apply Z.mod_small; lia. }
      rewrite Hex, Hfr. cbn [Z.eqb]. subst e. reflexivity.
Qed.

Lemma of_le_bytes_le_bytes (w : Z) :
  0 <= w < 2 ^ 32 -> of_le_bytes (le_bytes w) = Some w.
Proof.
  intros Hw. unfold le_bytes, of_le_bytes. f_equal.
  change (2 ^ 8) with 256. change (2 ^ 16) with 65536. change (2 ^ 24) with 16777216.
  change (2 ^ 32) with 4294967296 in Hw.
  Z.div_mod_to_equations. lia.
Qed.

End FloatFacts.
(** ** Frames of the motor operations *)

Section Frames.
Context {B : Type} `{!Transport B}.

Lemma send_can_frame_default (cmd_id motor_id : Z) (data : list Z) (w : World B) :
  exists (b : bool) (w' : World B),
    send_can_frame cmd_id motor_id data None w = (Ok b, w') /\
    sent w w' (mkMessage (can_id cmd_id (master_id w) motor_id) data true) /\
    master_id w' = master_id w /\
    last_positions w' = last_positions w.
Proof.
  destruct (send_can_frame_frames cmd_id motor_id data None w)
    as (b & w' & k & Hrun & Hle & Hpos & Htr & Hm & Hl).
  exists b, w'. repeat split; auto.
  exists k. cbn [default] in Hle, Hpos. split; [|exact Htr].
  specialize (Hpos ltac:(lia)). lia.
Qed.

Lemma sent_emit (w w1 : World B) (msg : Message) (b : B) (mid : Z)
    (lp : gmap Z spec_float) (evs : list event) :
  sent w w1 msg -> transmits evs = [] ->
  sent w (mkWorld b mid lp (trace w1 ++ evs)) msg.
Proof.
  intros (k & Hk & Htr) Hevs. exists k. split; [exact Hk|].
  cbn [trace]. rewrite transmits_app, Hevs, app_nil_r. exact Htr.
Qed.

(** A method that sends one frame, then sleeps and prints. *)
Ltac one_send cmd motor payload w :=
  destruct (send_can_frame_default cmd motor payload w)
    as (b & w1 & Hrun & Hsent & Hm & Hl);
  unfold bind, sleep, print, emit, ret, set_last_position;
  rewrite Hrun; cbn [trace master_id last_positions bus];
  eexists; split; [reflexivity|];
  cbn [trace master_id last_positions bus].

Lemma enable_motor_spec (motor_id : Z) (w : World B) :
  exists w' : World B,
    enable_motor motor_id w = (Ok VNone, w') /\
    sent w w' (mkMessage (can_id 0x03 (master_id w) motor_id) [0; 0; 0; 0; 0; 0; 0; 0] true) /\
    master_id w' = master_id w /\ last_positions w' = last_positions w.
Proof.
  unfold enable_motor. one_send 0x03 motor_id (replicate 8 0) w.
  repeat split; auto. rewrite <- app_assoc. apply sent_emit; auto.
Qed.

Lemma disable_motor_spec (motor_id : Z) (w : World B) :
  exists w' : World B,
    disable_motor motor_id w = (Ok VNone, w') /\
    sent w w' (mkMessage (can_id 0x04 (master_id w) motor_id) [0; 0; 0; 0; 0; 0; 0; 0] true) /\
    master_id w' = master_id w /\ last_positions w' = last_positions w.
Proof.
  unfold disable_motor. one_send 0x04 motor_id (replicate 8 0) w.
  repeat split; auto. rewrite <- app_assoc. apply sent_emit; auto.
Qed.

Lemma stop_motor_spec (motor_id : Z) (w : World B) :
  exists w' : World B,
    stop_motor motor_id w = (Ok VNone, w') /\
    sent w w' (mkMessage (can_id 0x00 (master_id w) motor_id) [0; 0; 0; 0; 0; 0; 0; 0] true) /\
    master_id w' = master_id w /\ last_positions w' = last_positions w.
Proof.
  unfold stop_motor. one_send 0x00 motor_id (replicate 8 0) w.
  repeat split; auto. rewrite <- app_assoc. apply sent_emit; auto.
Qed.

Lemma reset_position_spec (motor_id : Z) (w : World B) :
  exists w' : World B,
    reset_position motor_id w = (Ok VNone, w') /\
    sent w w' (mkMessage (can_id 0x06 (master_id w) motor_id) [1; 0; 0; 0; 0; 0; 0; 0] true) /\
    master_id w' = master_id w /\
    last_positions w' = <[motor_id := S754_zero false]> (last_positions w).
Proof.
  unfold reset_position. one_send 0x06 motor_id ([1] ++ replicate 7 0) w.
  repeat split; auto; [|rewrite Hl; reflexivity].
  rewrite <- app_assoc. apply sent_emit; auto.
Qed.

Lemma set_position_control_mode_spec (motor_id : Z) (w : World B) :
  exists w' : World B,
    set_position_control_mode motor_id w = (Ok VNone, w') /\
    sent w w' (mkMessage (can_id 0x12 (master_id w) motor_id) [0x05; 0x70; 0; 0; 1; 0; 0; 0] true) /\
    master_id w' = master_id w /\ last_positions w' = last_positions w.
Proof.
  unfold set_position_control_mode.
  one_send 0x12 motor_id [0x05; 0x70; 0; 0; 1; 0; 0; 0] w.
  repeat split; auto. rewrite <- app_assoc. apply sent_emit; auto.
Qed.

(** The three register writes that carry a float. *)
Lemma set_limit_speed_spec (motor_id : Z) (speed_rad_s : spec_float)
    (bs : list Z) (w : World B) :
  pack_f speed_rad_s = Ok bs ->
  exists w' : World B,
    set_limit_speed motor_id speed_rad_s w = (Ok VNone, w') /\
    sent w w' (mkMessage (can_id 0x12 (master_id w) motor_id) ([0x17; 0x70; 0; 0] ++ bs) true) /\
    master_id w' = master_id w /\ last_positions w' = last_positions w.
Proof.
  intros Hpack. unfold set_limit_speed. unfold bind at 1, lift. rewrite Hpack.
  one_send 0x12 motor_id ([0x17; 0x70; 0; 0] ++ bs) w.
  repeat split; auto. apply sent_emit; auto.
Qed.

Lemma set_limit_torque_spec (motor_id : Z) (torque_nm : spec_float)
    (bs : list Z) (w : World B) :
  pack_f torque_nm = Ok bs ->
  exists w' : World B,
    set_limit_torque motor_id torque_nm w = (Ok VNone, w') /\
    sent w w' (mkMessage (can_id 0x12 (master_id w) motor_id) ([0x18; 0x70; 0; 0] ++ bs) true) /\
    master_id w' = master_id w /\ last_positions w' = last_positions w.
Proof.
  intros Hpack. unfold set_limit_torque. unfold bind at 1, lift. rewrite Hpack.
  one_send 0x12 motor_id ([0x18; 0x70; 0; 0] ++ bs) w.
  repeat split; auto. apply sent_emit; auto.
Qed.

Lemma set_target_position_spec (motor_id : Z) (radians : spec_float)
    (bs : list Z) (w : World B) :
  pack_f radians = Ok bs ->
  exists (success : bool) (w' : World B),
    set_target_position motor_id radians w = (Ok (VBool success), w') /\
    (send_can_frame 0x12 motor_id ([0x16; 0x70; 0; 0] ++ bs) None w).1 = Ok success /\
    sent w w' (mkMessage (can_id 0x12 (master_id w) motor_id) ([0x16; 0x70; 0; 0] ++ bs) true) /\
    master_id w' = master_id w /\
    last_positions w' =
      if success then <[motor_id := radians]> (last_positions w) else last_positions w.
Proof.
  intros Hpack. unfold set_target_position. unfold bind at 1, lift. rewrite Hpack.
  destruct (send_can_frame_default 0x12 motor_id ([0x16; 0x70; 0; 0] ++ bs) w)
    as (b & w1 & Hrun & Hsent & Hm & Hl).
  unfold bind, sleep, emit, ret, set_last_position. rewrite Hrun.
  exists b. destruct b; cbn [trace master_id last_positions bus fst];
    eexists; (split; [reflexivity|]); cbn [trace master_id last_positions bus];
    repeat split; auto; try (rewrite Hl; reflexivity); apply sent_emit; auto.
Qed.

End Frames.

(** ** Arbitration id *)

Lemma field_disjoint (hi lo k : Z) :
  0 <= k -> 0 <= lo < 2 ^ k ->
  Z.shiftr (Z.lor (Z.shiftl hi k) lo) k = hi /\
  Z.land (Z.lor (Z.shiftl hi k) lo) (Z.ones k) = lo.
Proof.
  intros Hk Hlo. split.
  - rewrite Z.shiftr_lor, Z.shiftr_shiftl_l, Z.sub_diag, Z.shiftl_0_r by lia.
    rewrite Z.shiftr_div_pow2, Z.div_small by lia. apply Z.lor_0_r.
  - rewrite Z.land_lor_distr_l, !Z.land_ones by lia.
    rewrite Z.shiftl_mul_pow2, Z.mod_mul, Z.mod_small by lia. reflexivity.
Qed.

(** C2. When the command id fits 8 bits, the controller address 16 bits
    and the motor address 8 bits, shifting and masking the arbitration id
    gives the three fields back. *)
Theorem can_id_roundtrip (cmd_id master_id motor_id : Z) :
  0 <= cmd_id < 2 ^ 8 -> 0 <= master_id < 2 ^ 16 -> 0 <= motor_id < 2 ^ 8 ->
  decode_can_id (can_id cmd_id master_id motor_id) = (cmd_id, master_id, motor_id).
Proof.
  intros Hc Hm Ht. unfold decode_can_id, can_id.
  change 0xFF with (Z.ones 8). change 0xFFFF with (Z.ones 16).
  replace (Z.lor (Z.shiftl cmd_id 24) (Z.shiftl master_id 8))
    with (Z.shiftl (Z.lor (Z.shiftl cmd_id 16) master_id) 8)
    by (rewrite Z.shiftl_lor, Z.shiftl_shiftl by lia; reflexivity).
  destruct (field_disjoint (Z.lor (Z.shiftl cmd_id 16) master_id) motor_id 8)
    as [Hhi Hlo]; [lia | lia |].
  destruct (field_disjoint cmd_id master_id 16) as [Hhi' Hlo']; [lia | lia |].
  rewrite Hlo.
  replace 24 with (8 + 16) by lia.
  rewrite <- (Z.shiftr_shiftr _ 8 16) by lia.
  rewrite Hhi, Hhi', Hlo', Z.land_ones, Z.mod_small by lia. reflexivity.
Qed.

Lemma can_id_roundtrip_witness :
  decode_can_id (can_id 0x12 0x00FD 0x01) = (0x12, 0x00FD, 0x01).
Proof. apply can_id_roundtrip; lia. Defined.

(** ** Float payloads *)

Example pack_f_tenth :
  pack_f (S754_finite false 7205759403792794 (-56)) = Ok [0xCD; 0xCC; 0xCC; 0x3D].
Proof. reflexivity. Qed.

Example pack_f_negative_zero : pack_f (S754_zero true) = Ok [0; 0; 0; 0x80].
Proof. reflexivity. Qed.

Example pack_f_infinity : pack_f (S754_infinity false) = Ok [0; 0; 0x80; 0x7F].
Proof. reflexivity. Qed.

Example pack_f_nan : pack_f S754_nan = Ok [0; 0; 0xC0; 0x7F].
Proof. reflexivity. Qed.

(** 1e-45 rounds to the smallest subnormal, 1e-46 to zero. *)
Example pack_f_tiny :
  pack_f (S754_finite false 6427752177035961 (-202)) = Ok [1; 0; 0; 0] /\
  pack_f (S754_finite false 5142201741628769 (-205)) = Ok [0; 0; 0; 0].
Proof. split; reflexivity. Qed.

(** The largest double that still rounds to the largest finite binary32
    value, and the next one, half-way to 2^128, which does not fit. *)
Example pack_f_largest :
  pack_f (S754_finite false 9007198986305535 75) = Ok [0xFF; 0xFF; 0x7F; 0x7F] /\
  pack_f (S754_finite false 9007198986305536 75) =
    Raise (OverflowError "float too large to pack with f format").
Proof. split; reflexivity. Qed.

(** 1e40 does not fit. *)
Example pack_f_overflow :
  pack_f (S754_finite false 8271806125530277 80) =
  Raise (OverflowError "float too large to pack with f format").
Proof. reflexivity. Qed.

(** C5, as worded, fails: [math.radians(15)] is a double that binary32
    cannot hold, and decoding its payload gives the rounded value. *)
Lemma roundtrip_exact_radians_15_fails :
  Float.valid64 (Float.radians (Float.of_Z 15)) = true /\
  Float.is_nan (Float.radians (Float.of_Z 15)) = false /\
  pack_f (Float.radians (Float.of_Z 15)) = Ok [0x92; 0x0A; 0x86; 0x3E] /\
  unpack_f [0x92; 0x0A; 0x86; 0x3E] = Some (S754_finite false 4716158632591360 (-54)) /\
  ~ roundtrip_exact (Float.radians (Float.of_Z 15)).
Proof.
  repeat split. intros (bs & Hpack & Hunpack).
  vm_compute in Hpack. injection Hpack as <-.
  vm_compute in Hunpack. discriminate.
Qed.

(** For every binary32 value other than NaN, widened to a Python float
    [v]: [struct.pack('<f', v)] succeeds and decoding its four bytes
    yields [v] exactly. *)
Theorem pack_f_roundtrip_single (y : spec_float) :
  Float.valid32 y = true ->
  Float.is_nan y = false ->
  roundtrip_exact (Float.double_of_single y).
Proof.
  intros Hv Hn. unfold roundtrip_exact, pack_f, unpack_f.
  rewrite single_of_double_of_single by exact Hv.
  assert (Hinf : Float.is_inf y && negb (Float.is_inf (Float.double_of_single y)) = false).
  { destruct y; reflexivity. }
  rewrite Hinf. eexists. split; [reflexivity|].
  rewrite of_le_bytes_le_bytes by (apply bits_of_single_range; exact Hv).
  cbn [mbind option_bind]. rewrite single_of_bits_of_single by assumption.
  reflexivity.
Qed.

Lemma pack_f_roundtrip_single_witness :
  roundtrip_exact (Float.double_of_single (S754_finite false 8784530 (-25))).
Proof. apply pack_f_roundtrip_single; reflexivity. Defined.

(** C5, amended.  For every float [v] that single precision holds
    exactly (the widening of a binary32 value other than NaN),
    [set_limit_speed], [set_limit_torque] and [set_target_position] hand
    the bus a payload whose bytes 4 to 7 decode to [v] exactly. *)
Theorem float_payload_roundtrip {B : Type} `{!Transport B}
    (motor_id : Z) (y : spec_float) (w : World B) :
  Float.valid32 y = true ->
  Float.is_nan y = false ->
  let v := Float.double_of_single y in
  exists value : list Z,
    unpack_f value = Some v /\
    (exists w' : World B,
       set_limit_speed motor_id v w = (Ok VNone, w') /\
       sent w w' (mkMessage (can_id 0x12 (master_id w) motor_id)
                    ([0x17; 0x70; 0x00; 0x00] ++ value) true)) /\
    (exists w' : World B,
       set_limit_torque motor_id v w = (Ok VNone, w') /\
       sent w w' (mkMessage (can_id 0x12 (master_id w) motor_id)
                    ([0x18; 0x70; 0x00; 0x00] ++ value) true)) /\
    (exists (success : bool) (w' : World B),
       set_target_position motor_id v w = (Ok (VBool success), w') /\
       sent w w' (mkMessage (can_id 0x12 (master_id w) motor_id)
                    ([0x16; 0x70; 0x00; 0x00] ++ value) true)) /\
    drop 4 ([0x17; 0x70; 0x00; 0x00] ++ value) = value /\
    drop 4 ([0x18; 0x70; 0x00; 0x00] ++ value) = value /\
    drop 4 ([0x16; 0x70; 0x00; 0x00] ++ value) = value.
Proof.
  intros Hv Hn v.
  destruct (pack_f_roundtrip_single y Hv Hn) as (value & Hpack & Hunpack).
  fold v in Hpack, Hunpack.
  exists value. split; [exact Hunpack|].
  split; [|split; [|split; [|repeat split]]].
  - destruct (set_limit_speed_spec motor_id v value w Hpack) as (w' & ? & ? & _). eauto.
  - destruct (set_limit_torque_spec motor_id v value w Hpack) as (w' & ? & ? & _). eauto.
  - destruct (set_target_position_spec motor_id v value w Hpack)
      as (b & w' & ? & _ & ? & _). eauto.
Qed.

(** The single-precision value 0x1.0c1524p-2, about 0.2618. *)
Lemma float_payload_roundtrip_witness :
  exists value : list Z,
    unpack_f value = Some (Float.double_of_single (S754_finite false 8784530 (-25))) /\
    (exists w' : World healthy,
       set_limit_speed 1 (Float.double_of_single (S754_finite false 8784530 (-25)))
         (init Healthy) = (Ok VNone, w') /\
       sent (init Healthy) w'
         (mkMessage (can_id 0x12 (master_id (init Healthy)) 1)
            ([0x17; 0x70; 0x00; 0x00] ++ value) true)).
Proof.
  destruct (float_payload_roundtrip 1 (S754_finite false 8784530 (-25)) (init Healthy)
              eq_refl eq_refl) as (value & Hdec & Hspeed & _).
  exists value. split; [exact Hdec | exact Hspeed].
Defined.

(** ** The motor operations *)

Local Open Scope py_scope.



(** C4, as worded, fails: bytes 4 to 7 of the mode-select payload are
    1, 0, 0, 0 and not 0, 0, 1, 0. *)
Lemma set_position_control_mode_value_bytes :
  transmits (trace (set_position_control_mode 1 (init Healthy)).2) =
    [mkMessage 0x1200FD01 [0x05; 0x70; 0x00; 0x00; 0x01; 0x00; 0x00; 0x00] true] /\
  drop 4 [0x05; 0x70; 0x00; 0x00; 0x01; 0x00; 0x00; 0x00] = [0x01; 0x00; 0x00; 0x00] /\
  drop 4 [0x05; 0x70; 0x00; 0x00; 0x01; 0x00; 0x00; 0x00] <> [0x00; 0x00; 0x01; 0x00].
Proof. repeat split. discriminate. Qed.

(** C4, amended.  [set_position_control_mode] sends a frame with command
    id 0x12 whose payload holds the register index 0x7005 in bytes 0 and 1
    (low byte, then high byte), zeros in bytes 2 and 3, and 1, 0, 0, 0 in
    bytes 4 to 7. *)
Theorem set_position_control_mode_frame {B : Type} `{!Transport B}
    (motor_id : Z) (w : World B) :
  exists (w' : World B) (payload : list Z),
    set_position_control_mode motor_id w = (Ok VNone, w') /\
    sent w w' (mkMessage (can_id 0x12 (master_id w) motor_id) payload true) /\
    length payload = 8%nat /\
    take 2 payload = [0x7005 mod 256; 0x7005 / 256] /\
    take 2 (drop 2 payload) = [0x00; 0x00] /\
    drop 4 payload = [0x01; 0x00; 0x00; 0x00].
Proof.
  destruct (set_position_control_mode_spec motor_id w) as (w' & Hrun & Hsent & _).
  exists w', [0x05; 0x70; 0; 0; 1; 0; 0; 0]. repeat split; auto.
Qed.

(** C7. For every motor address, [enable_motor], [disable_motor] and
    [stop_motor] send eight zero bytes under command ids 0x03, 0x04 and
    0x00, and [reset_position] sends 1 followed by seven zeros under
    command id 0x06. *)
Theorem simple_command_frames {B : Type} `{!Transport B} (motor_id : Z) (w : World B) :
  (exists w', enable_motor motor_id w = (Ok VNone, w') /\
     sent w w' (mkMessage (can_id 0x03 (master_id w) motor_id)
                  [0; 0; 0; 0; 0; 0; 0; 0] true)) /\
  (exists w', disable_motor motor_id w = (Ok VNone, w') /\
     sent w w' (mkMessage (can_id 0x04 (master_id w) motor_id)
                  [0; 0; 0; 0; 0; 0; 0; 0] true)) /\
  (exists w', stop_motor motor_id w = (Ok VNone, w') /\
     sent w w' (mkMessage (can_id 0x00 (master_id w) motor_id)
                  [0; 0; 0; 0; 0; 0; 0; 0] true)) /\
  (exists w', reset_position motor_id w = (Ok VNone, w') /\
     sent w w' (mkMessage (can_id 0x06 (master_id w) motor_id)
                  [0x01; 0; 0; 0; 0; 0; 0; 0] true)).
Proof.
  repeat split.
  - destruct (enable_motor_spec motor_id w) as (w' & ? & ? & _); eauto.
  - destruct (disable_motor_spec motor_id w) as (w' & ? & ? & _); eauto.
  - destruct (stop_motor_spec motor_id w) as (w' & ? & ? & _); eauto.
  - destruct (reset_position_spec motor_id w) as (w' & ? & ? & _); eauto.
Qed.

(** C9. [set_target_position] stores [radians] in [last_positions] when
    its send returned [True] and leaves the cache alone when it returned
    [False]; [reset_position] stores 0.0 whatever its send returned. *)
Theorem last_positions_asymmetry {B : Type} `{!Transport B}
    (motor_id : Z) (radians : spec_float) (bs : list Z) (w : World B) :
  pack_f radians = Ok bs ->
  (exists (success : bool) (w' : World B),
     (send_can_frame 0x12 motor_id ([0x16; 0x70; 0x00; 0x00] ++ bs) None w).1 = Ok success /\
     set_target_position motor_id radians w = (Ok (VBool success), w') /\
     last_positions w' =
       if success then <[motor_id := radians]> (last_positions w)
       else last_positions w) /\
  (exists (sent_ok : bool) (w' : World B),
     (send_can_frame 0x06 motor_id ([0x01] ++ replicate 7 0x00) None w).1 = Ok sent_ok /\
     reset_position motor_id w = (Ok VNone, w') /\
     last_positions w' = <[motor_id := S754_zero false]> (last_positions w)).
Proof.
  intros Hpack. split.
  - destruct (set_target_position_spec motor_id radians bs w Hpack)
      as (success & w' & Hrun & Hsend & _ & _ & Hl).
    exists success, w'. auto.
  - destruct (reset_position_spec motor_id w) as (w' & Hrun & _ & _ & Hl).
    destruct (send_can_frame_default 0x06 motor_id ([0x01] ++ replicate 7 0x00) w)
      as (b & w1 & Hsend & _).
    exists b, w'. rewrite Hsend. auto.
Qed.

(** On a bus that refuses every frame both sends return [False]: the
    cache keeps its old content after [set_target_position] and holds 0.0
    after [reset_position]. *)
Lemma last_positions_asymmetry_witness :
  (exists (success : bool) (w' : World dead),
     (send_can_frame 0x12 1 ([0x16; 0x70; 0x00; 0x00] ++ [0; 0; 0x40; 0x41]) None
        (init Dead)).1 = Ok success /\
     set_target_position 1 (Float.of_Z 12) (init Dead) = (Ok (VBool success), w') /\
     last_positions w' =
       if success then <[1 := Float.of_Z 12]> (last_positions (init Dead))
       else last_positions (init Dead)) /\
  (exists (sent_ok : bool) (w' : World dead),
     (send_can_frame 0x06 1 ([0x01] ++ replicate 7 0x00) None (init Dead)).1 = Ok sent_ok /\
     reset_position 1 (init Dead) = (Ok VNone, w') /\
     last_positions w' = <[1 := S754_zero false]> (last_positions (init Dead))).
Proof.
  apply (last_positions_asymmetry 1 (Float.of_Z 12) [0; 0; 0x40; 0x41] (init Dead)).
  reflexivity.
Defined.

Example cache_on_dead_bus :
  (send_can_frame 0x12 1 [0x16; 0x70; 0; 0; 0; 0; 0x40; 0x41] None (init Dead)).1 = Ok false /\
  last_positions (set_target_position 1 (Float.of_Z 12) (init Dead)).2 = ∅ /\
  (send_can_frame 0x06 1 [0x01; 0; 0; 0; 0; 0; 0; 0] None (init Dead)).1 = Ok false /\
  last_positions (reset_position 1 (init Dead)).2 = {[ 1 := S754_zero false ]}.
Proof. repeat split. Qed.

(** C6. [move_to_degrees(1, 15, 2.0, 12.0)] is exactly three sends, in
    this order: register 0x7018 with 12.0, register 0x7017 with 2.0,
    register 0x7016 with [math.radians(15)], a value between 0.261799 and
    0.261800.  Each send hands its frame to the bus one to three times,
    and a healthy bus sees exactly the three frames. *)
Theorem move_to_degrees_sends {B : Type} `{!Transport B} (w : World B) :
  move_to_degrees 1 (Float.of_Z 15) (Some (Float.of_Z 2)) (Some (Float.of_Z 12)) w =
    (send_can_frame 0x12 1 torque_12 None ;;
     sleep 50 ;;
     send_can_frame 0x12 1 speed_2 None ;;
     sleep 50 ;;
     success <- send_can_frame 0x12 1 target_15_degrees None ;;
     (if success : bool
      then set_last_position 1 (Float.radians (Float.of_Z 15))
      else ret tt) ;;
     sleep 50 ;;
     ret VNone) w /\
  (exists (w' : World B) (k1 k2 k3 : nat),
     move_to_degrees 1 (Float.of_Z 15) (Some (Float.of_Z 2)) (Some (Float.of_Z 12)) w =
       (Ok VNone, w') /\
     (1 <= k1 <= 3 /\ 1 <= k2 <= 3 /\ 1 <= k3 <= 3)%nat /\
     transmits (trace w') =
       transmits (trace w) ++
       replicate k1 (mkMessage (can_id 0x12 (master_id w) 1) torque_12 true) ++
       replicate k2 (mkMessage (can_id 0x12 (master_id w) 1) speed_2 true) ++
       replicate k3 (mkMessage (can_id 0x12 (master_id w) 1) target_15_degrees true)) /\
  transmits (trace (move_to_degrees 1 (Float.of_Z 15) (Some (Float.of_Z 2))
                      (Some (Float.of_Z 12)) (init Healthy)).2) =
    [mkMessage 0x1200FD01 torque_12 true;
     mkMessage 0x1200FD01 speed_2 true;
     mkMessage 0x1200FD01 target_15_degrees true] /\
  (take 2 torque_12 = [0x7018 mod 256; 0x7018 / 256] /\
   pack_f (Float.of_Z 12) = Ok (drop 4 torque_12) /\
   unpack_f (drop 4 torque_12) = Some (Float.of_Z 12)) /\
  (take 2 speed_2 = [0x7017 mod 256; 0x7017 / 256] /\
   pack_f (Float.of_Z 2) = Ok (drop 4 speed_2) /\
   unpack_f (drop 4 speed_2) = Some (Float.of_Z 2)) /\
  (take 2 target_15_degrees = [0x7016 mod 256; 0x7016 / 256] /\
   pack_f (Float.radians (Float.of_Z 15)) = Ok (drop 4 target_15_degrees) /\
   Float.radians (Float.of_Z 15) = S754_finite false 4716158501352293 (-54) /\
   261799 * 2 ^ 54 <= 4716158501352293 * 10 ^ 6 < 261800 * 2 ^ 54).
Proof.
  split; [|split; [|split; [|repeat split; lia]]].
  - unfold move_to_degrees, set_limit_torque, set_limit_speed, set_target_position.
    change (default (Float.of_Z 5) (Some (Float.of_Z 2))) with (Float.of_Z 2).
    change (default (Float.of_Z 12) (Some (Float.of_Z 12))) with (Float.of_Z 12).
    change (pack_f (Float.of_Z 12)) with (Ok (drop 4 torque_12)).
    change (pack_f (Float.of_Z 2)) with (Ok (drop 4 speed_2)).
    change (pack_f (Float.radians (Float.of_Z 15))) with (Ok (drop 4 target_15_degrees)).
    unfold bind, lift, sleep, emit, ret. cbn [drop app torque_12 speed_2 target_15_degrees].
    destruct (send_can_frame 18 1 _ None w) as [[b1|e1] w1]; [|reflexivity].
    destruct (send_can_frame 18 1 _ None _) as [[b2|e2] w2]; [|reflexivity].
    destruct (send_can_frame 18 1 _ None _) as [[b3|e3] w3]; [|reflexivity].
    destruct b3; reflexivity.
  - destruct (set_limit_torque_spec 1 (Float.of_Z 12) (drop 4 torque_12) w eq_refl)
      as (w1 & Hrun1 & (k1 & Hk1 & Htr1) & Hm1 & _).
    destruct (set_limit_speed_spec 1 (Float.of_Z 2) (drop 4 speed_2) w1 eq_refl)
      as (w2 & Hrun2 & (k2 & Hk2 & Htr2) & Hm2 & _).
    destruct (set_target_position_spec 1 (Float.radians (Float.of_Z 15))
                (drop 4 target_15_degrees) w2 eq_refl)
      as (b & w3 & Hrun3 & _ & (k3 & Hk3 & Htr3) & _ & _).
    exists w3, k1, k2, k3.
    unfold move_to_degrees, bind, ret.
    change (default (Float.of_Z 5) (Some (Float.of_Z 2))) with (Float.of_Z 2).
    change (default (Float.of_Z 12) (Some (Float.of_Z 12))) with (Float.of_Z 12).
    rewrite Hrun1, Hrun2, Hrun3. split; [reflexivity|]. split; [lia|].
    rewrite Htr3, Htr2, Htr1, Hm2, Hm1, <- !app_assoc. reflexivity.
  - reflexivity.
Qed.

(** ** What the caller gets back *)

Lemma bind_fst_lift {B A C : Type} (r : result A) (k : A -> M B C) (w : World B) :
  (bind (lift r) k w).1 = match r with Ok a => (k a w).1 | Raise e => Raise e end.
Proof. destruct r; reflexivity. Qed.

(** C10. Only [set_target_position] hands the result of
    [send_can_frame] back.  The other eight operations return [None]
    whatever the bus did (the three that pack a float can raise
    [OverflowError] instead, before anything is sent), so a failed send is
    invisible in their return value; [set_target_position] returns the
    boolean of its send. *)
Theorem only_set_target_position_reports {B : Type} `{!Transport B}
    (motor_id : Z) (x degrees : spec_float) (speed torque : option spec_float)
    (w : World B) :
  (enable_motor motor_id w).1 = Ok VNone /\
  (disable_motor motor_id w).1 = Ok VNone /\
  (stop_motor motor_id w).1 = Ok VNone /\
  (reset_position motor_id w).1 = Ok VNone /\
  (set_position_control_mode motor_id w).1 = Ok VNone /\
  (set_limit_speed motor_id x w).1 =
    match pack_f x with Ok _ => Ok VNone | Raise e => Raise e end /\
  (set_limit_torque motor_id x w).1 =
    match pack_f x with Ok _ => Ok VNone | Raise e => Raise e end /\
  (move_to_degrees motor_id degrees speed torque w).1 =
    match pack_f (default (Float.of_Z 12) torque),
          pack_f (default (Float.of_Z 5) speed),
          pack_f (Float.radians degrees) with
    | Raise e, _, _ => Raise e
    | Ok _, Raise e, _ => Raise e
    | Ok _, Ok _, Raise e => Raise e
    | Ok _, Ok _, Ok _ => Ok VNone
    end /\
  (set_target_position motor_id x w).1 =
    match pack_f x with
    | Ok bs =>
        match (send_can_frame 0x12 motor_id ([0x16; 0x70; 0x00; 0x00] ++ bs) None w).1 with
        | Ok success => Ok (VBool success)
        | Raise e => Raise e
        end
    | Raise e => Raise e
    end /\
  ((send_can_frame 0x03 1 (replicate 8 0x00) None (init Dead)).1 = Ok false /\
   (enable_motor 1 (init Dead)).1 = Ok VNone /\
   (enable_motor 1 (init Healthy)).1 = Ok VNone /\
   (set_target_position 1 (Float.of_Z 12) (init Dead)).1 = Ok (VBool false) /\
   (set_target_position 1 (Float.of_Z 12) (init Healthy)).1 = Ok (VBool true)).
Proof.
  assert (Hspeed : forall (m : Z) (y : spec_float) (w0 : World B),
            (set_limit_speed m y w0).1 =
            match pack_f y with Ok _ => Ok VNone | Raise e => Raise e end).
  { intros m y w0. destruct (pack_f y) as [bs|e] eqn:Hp.
    - destruct (set_limit_speed_spec m y bs w0 Hp) as (w' & -> & _). reflexivity.
    - unfold set_limit_speed. rewrite bind_fst_lift, Hp. reflexivity. }
  assert (Htorque : forall (m : Z) (y : spec_float) (w0 : World B),
            (set_limit_torque m y w0).1 =
            match pack_f y with Ok _ => Ok VNone | Raise e => Raise e end).
  { intros m y w0. destruct (pack_f y) as [bs|e] eqn:Hp.
    - destruct (set_limit_torque_spec m y bs w0 Hp) as (w' & -> & _). reflexivity.
    - unfold set_limit_torque. rewrite bind_fst_lift, Hp. reflexivity. }
  assert (Htarget : forall (m : Z) (y : spec_float) (w0 : World B),
            (set_target_position m y w0).1 =
            match pack_f y with
            | Ok bs =>
                match (send_can_frame 0x12 m ([0x16; 0x70; 0x00; 0x00] ++ bs) None w0).1 with
                | Ok success => Ok (VBool success)
                | Raise e => Raise e
                end
            | Raise e => Raise e
            end).
  { intros m y w0. destruct (pack_f y) as [bs|e] eqn:Hp.
    - destruct (set_target_position_spec m y bs w0 Hp) as (b & w' & -> & -> & _).
      reflexivity.
    - unfold set_target_position. rewrite bind_fst_lift, Hp. reflexivity. }
  repeat apply conj; try reflexivity.
  - destruct (enable_motor_spec motor_id w) as (w' & -> & _). reflexivity.
  - destruct (disable_motor_spec motor_id w) as (w' & -> & _). reflexivity.
  - destruct (stop_motor_spec motor_id w) as (w' & -> & _). reflexivity.
  - destruct (reset_position_spec motor_id w) as (w' & -> & _). reflexivity.
  - destruct (set_position_control_mode_spec motor_id w) as (w' & -> & _). reflexivity.
  - apply Hspeed.
  - apply Htorque.
  - unfold move_to_degrees.
    destruct (pack_f (default (Float.of_Z 12) torque)) as [bt|e] eqn:Ht.
    + destruct (set_limit_torque_spec motor_id _ bt w Ht) as (w1 & Hrun1 & _).
      unfold bind at 1. rewrite Hrun1.
      destruct (pack_f (default (Float.of_Z 5) speed)) as [bv|e] eqn:Hv.
      * destruct (set_limit_speed_spec motor_id _ bv w1 Hv) as (w2 & Hrun2 & _).
        unfold bind at 1. rewrite Hrun2.
        destruct (pack_f (Float.radians degrees)) as [bp|e] eqn:Hp.
        -- destruct (set_target_position_spec motor_id _ bp w2 Hp)
             as (b & w3 & Hrun3 & _).
           unfold bind, ret. rewrite Hrun3. reflexivity.
        -- unfold bind at 1.
           pose proof (Htarget motor_id (Float.radians degrees) w2) as Hs.
           rewrite Hp in Hs.
           destruct (set_target_position motor_id _ w2) as [[v|e'] w3];
             cbn [fst] in Hs; [discriminate | exact Hs].
      * unfold bind at 1.
        pose proof (Hspeed motor_id (default (Float.of_Z 5) speed) w1) as Hs.
        rewrite Hv in Hs.
        destruct (set_limit_speed motor_id _ w1) as [[v|e'] w2];
          cbn [fst] in Hs; [discriminate | exact Hs].
    + unfold bind at 1.
      pose proof (Htorque motor_id (default (Float.of_Z 12) torque) w) as Hs.
      rewrite Ht in Hs.
      destruct (set_limit_torque motor_id _ w) as [[v|e'] w1];
        cbn [fst] in Hs; [discriminate | exact Hs].
  - apply Htarget.
Qed.

(** ** More on the retrying send *)

Lemma accepted_app (t1 t2 : list event) :
  accepted (t1 ++ t2) = (accepted t1 + accepted t2)%nat.
Proof.
  induction t1 as [|ev t1 IH]; [reflexivity|].
  destruct ev as [msg [e|]| |]; simpl; rewrite IH; reflexivity.
Qed.

Lemma slept_app (t1 t2 : list event) :
  slept (t1 ++ t2) = slept t1 + slept t2.
Proof.
  induction t1 as [|ev t1 IH]; [reflexivity|].
  destruct ev; simpl; rewrite IH; lia.
Qed.

Lemma failed_attempts_S (msg : Message) (e : exn) (n : nat) :
  failed_attempts msg e (S n) =
  [Transmit msg (Some e); Sleep 50] ++ failed_attempts msg e n.
Proof. reflexivity. Qed.

Lemma send_attempts_flaky_success (msg : Message) (retry : Z) :
  forall (N len : nat) (k : Z) (w : World flaky),
    bus w = Flaky N ->
    (N < len)%nat ->
    k + Z.of_nat len = retry ->
    send_attempts msg retry (seqZ k (Z.of_nat len)) w =
    (Ok true,
     mkWorld (Flaky 0) (master_id w) (last_positions w)
       (trace w ++ failed_attempts msg bus_error N ++ [Transmit msg None; Sleep 15])).
Proof.
  induction N as [|N IH]; intros len k w Hbus Hlen Hk.
  - rewrite seqZ_cons by lia. cbn [send_attempts]. unfold bind at 1.
    rewrite send_attempt_eq. cbv zeta. rewrite Hbus. reflexivity.
  - rewrite seqZ_cons by lia. cbn [send_attempts]. unfold bind at 1.
    rewrite send_attempt_eq. cbv zeta. rewrite Hbus.
    unfold transmit, flaky_transport. cbn [failures_left fst snd].
    destruct (Z.eqb_spec k (retry - 1)) as [Hlast|_]; [lia|].
    destruct len as [|len]; [lia|].
    replace (Z.pred (Z.of_nat (S len))) with (Z.of_nat len) by lia.
    rewrite (IH len (Z.succ k)) by (try reflexivity; lia).
    cbn [master_id last_positions trace].
    rewrite failed_attempts_S, <- !app_assoc. reflexivity.
Qed.

Lemma send_attempts_flaky_exhausted (msg : Message) (retry : Z) :
  forall (len N : nat) (k : Z) (w : World flaky),
    bus w = Flaky N ->
    (S len <= N)%nat ->
    k + Z.of_nat (S len) = retry ->
    send_attempts msg retry (seqZ k (Z.of_nat (S len))) w =
    (Ok false,
     mkWorld (Flaky (N - S len)) (master_id w) (last_positions w)
       (trace w ++ failed_attempts msg bus_error len ++
        [Transmit msg (Some bus_error); Output (SendError retry bus_error)])).
Proof.
  induction len as [|len IH]; intros N k w Hbus Hlen Hk;
    (destruct N as [|N]; [lia|]);
    rewrite seqZ_cons by lia; cbn [send_attempts]; unfold bind at 1;
    rewrite send_attempt_eq; cbv zeta; rewrite Hbus;
    unfold transmit, flaky_transport; cbn [failures_left fst snd].
  - destruct (Z.eqb_spec k (retry - 1)) as [_|Hmore]; [|lia].
    unfold ret. replace (S N - 1)%nat with N by lia. reflexivity.
  - destruct (Z.eqb_spec k (retry - 1)) as [Hlast|_]; [lia|].
    replace (Z.pred (Z.of_nat (S (S len)))) with (Z.of_nat (S len)) by lia.
    rewrite (IH N (Z.succ k)) by (try reflexivity; lia).
    cbn [master_id last_positions trace].
    rewrite failed_attempts_S, <- !app_assoc. reflexivity.
Qed.

(** X1. On the transport that fails [N] times, a send with more than [N]
    attempts leaves this trace: [N] failed attempts, each followed by the
    50 ms pause, then the accepted frame and the 15 ms settle pause. *)
Theorem send_can_frame_flaky_success_trace (N : nat) (retry : option Z)
    (cmd_id motor_id : Z) (data : list Z) (w : World flaky) :
  bus w = Flaky N ->
  Z.of_nat N < default 3 retry ->
  let msg := mkMessage (can_id cmd_id (master_id w) motor_id) data true in
  send_can_frame cmd_id motor_id data retry w =
  (Ok true,
   mkWorld (Flaky 0) (master_id w) (last_positions w)
     (trace w ++ failed_attempts msg bus_error N ++ [Transmit msg None; Sleep 15])).
Proof.
  intros Hbus Hr msg. unfold send_can_frame, bind, get_master_id. fold msg.
  rewrite <- (Z2Nat.id (default 3 retry)) at 2 by lia.
  apply send_attempts_flaky_success; [exact Hbus | lia | lia].
Qed.

Lemma send_can_frame_flaky_success_trace_witness :
  send_can_frame 0x03 1 (replicate 8 0) None (init (Flaky 2)) =
  (Ok true,
   mkWorld (Flaky 0) 0x00FD ∅
     ([Output Connected] ++
      failed_attempts (mkMessage 0x0300FD01 (replicate 8 0) true) bus_error 2 ++
      [Transmit (mkMessage 0x0300FD01 (replicate 8 0) true) None; Sleep 15])).
Proof.
  apply (send_can_frame_flaky_success_trace 2 None 0x03 1 (replicate 8 0)
           (init (Flaky 2)) eq_refl).
  simpl. lia.
Defined.

(** X2. When the attempts run out on that transport, every attempt but
    the last is followed by the 50 ms pause; the last is followed by the
    error line and no pause, and the transport has [N - retry] failures
    left. *)
Theorem send_can_frame_flaky_exhausted_trace (N : nat) (retry : option Z)
    (cmd_id motor_id : Z) (data : list Z) (w : World flaky) :
  bus w = Flaky N ->
  0 < default 3 retry <= Z.of_nat N ->
  let r := default 3 retry in
  let msg := mkMessage (can_id cmd_id (master_id w) motor_id) data true in
  send_can_frame cmd_id motor_id data retry w =
  (Ok false,
   mkWorld (Flaky (N - Z.to_nat r)) (master_id w) (last_positions w)
     (trace w ++ failed_attempts msg bus_error (Z.to_nat r - 1) ++
      [Transmit msg (Some bus_error); Output (SendError r bus_error)])).
Proof.
  intros Hbus Hr r msg. unfold send_can_frame, bind, get_master_id. fold msg r.
  assert (Hlen : Z.to_nat r = S (Z.to_nat r - 1)) by (unfold r; lia).
  rewrite <- (Z2Nat.id r) at 2 by (unfold r; lia).
  rewrite Hlen at 1 2.
  apply send_attempts_flaky_exhausted; [exact Hbus | unfold r; lia | unfold r; lia].
Qed.

Lemma send_can_frame_flaky_exhausted_trace_witness :
  send_can_frame 0x03 1 (replicate 8 0) (Some 2) (init (Flaky 5)) =
  (Ok false,
   mkWorld (Flaky 3) 0x00FD ∅
     ([Output Connected] ++
      failed_attempts (mkMessage 0x0300FD01 (replicate 8 0) true) bus_error 1 ++
      [Transmit (mkMessage 0x0300FD01 (replicate 8 0) true) (Some bus_error);
       Output (SendError 2 bus_error)])).
Proof.
  apply (send_can_frame_flaky_exhausted_trace 5 (Some 2) 0x03 1 (replicate 8 0)
           (init (Flaky 5)) eq_refl).
  simpl. lia.
Defined.

Section SendMore.
Context {B : Type} `{!Transport B}.

Lemma send_attempts_accepted (msg : Message) (retry : Z) (attempts : list Z) (w : World B) :
  exists (b : bool) (w' : World B),
    send_attempts msg retry attempts w = (Ok b, w') /\
    accepted (trace w') = (accepted (trace w) + if b then 1 else 0)%nat.
Proof.
  revert w. induction attempts as [|attempt rest IH]; intros w.
  - exists false, w. split; [reflexivity | simpl; lia].
  - cbn [send_attempts]. unfold bind at 1. rewrite send_attempt_eq. cbv zeta.
    destruct (transmit (bus w) msg) as [b' [e|]]; cbn [fst snd].
    + destruct (attempt =? retry - 1).
      * eexists false, _. unfold ret. split; [reflexivity|].
        cbn [trace]. rewrite accepted_app. simpl. lia.
      * match goal with |- context [send_attempts _ _ _ ?w1] =>
          destruct (IH w1) as (b & w' & Hrun & Hacc) end.
        exists b, w'. split; [exact Hrun|].
        rewrite Hacc. cbn [trace]. rewrite accepted_app. simpl. lia.
    + eexists true, _. unfold ret. split; [reflexivity|].
      cbn [trace]. rewrite accepted_app. simpl. lia.
Qed.

Lemma send_attempts_slept (msg : Message) (retry : Z) :
  forall (len : nat) (k : Z) (w : World B),
    k + Z.of_nat (S len) = retry ->
    exists (b : bool) (w' : World B),
      send_attempts msg retry (seqZ k (Z.of_nat (S len))) w = (Ok b, w') /\
      slept (trace w) <= slept (trace w') <= slept (trace w) + 50 * Z.of_nat len + 15.
Proof.
  induction len as [|len IH]; intros k w Hk;
    rewrite seqZ_cons by lia; cbn [send_attempts]; unfold bind at 1;
    rewrite send_attempt_eq; cbv zeta;
    destruct (transmit (bus w) msg) as [b' [e|]]; cbn [fst snd].
  - destruct (Z.eqb_spec k (retry - 1)) as [_|Hmore]; [|lia].
    eexists _, _. unfold ret. split; [reflexivity|].
    cbn [trace]. rewrite slept_app. cbn [slept]. lia.
  - eexists _, _. unfold ret. split; [reflexivity|].
    cbn [trace]. rewrite slept_app. cbn [slept]. lia.
  - destruct (Z.eqb_spec k (retry - 1)) as [Hlast|_]; [lia|].
    replace (Z.pred (Z.of_nat (S (S len)))) with (Z.of_nat (S len)) by lia.
    match goal with |- context [send_attempts _ _ _ ?w1] =>
      destruct (IH (Z.succ k) w1 ltac:(lia)) as (b & w' & Hrun & Hs) end.
    exists b, w'. split; [exact Hrun|].
    cbn [trace] in Hs. rewrite slept_app in Hs. cbn [slept] in Hs. lia.
  - eexists _, _. unfold ret. split; [reflexivity|].
    cbn [trace]. rewrite slept_app. cbn [slept]. lia.
Qed.

Lemma can_Message_bytes (arbitration_id : Z) (data : list Z) :
  Forall is_byte data ->
  can_Message arbitration_id data = Ok (mkMessage arbitration_id data true).
Proof.
  intros Hbytes. unfold can_Message.
  replace (forallb _ data) with true; [reflexivity|].
  symmetry. apply forallb_forall. intros b Hb.
  rewrite Forall_forall in Hbytes. specialize (Hbytes b).
  rewrite list_elem_of_In in Hbytes. specialize (Hbytes Hb).
  unfold is_byte in Hbytes. apply andb_true_intro.
  split; [apply Z.leb_le | apply Z.ltb_lt]; lia.
Qed.

Lemma can_Message_not_bytes (arbitration_id : Z) (data : list Z) :
  ~ Forall is_byte data ->
  can_Message arbitration_id data = Raise (ValueError "byte must be in range(0, 256)").
Proof.
  intros Hbad. unfold can_Message.
  destruct (forallb _ data) eqn:Hall; [|reflexivity].
  exfalso. apply Hbad. rewrite Forall_forall. intros b Hb.
  rewrite list_elem_of_In in Hb.
  rewrite forallb_forall in Hall. specialize (Hall b Hb).
  apply andb_prop in Hall as [H1 H2].
  apply Z.leb_le in H1. apply Z.ltb_lt in H2. unfold is_byte. lia.
Qed.

Lemma send_can_frame_full_bytes (cmd_id motor_id : Z) (data : list Z)
    (retry : option Z) (w : World B) :
  Forall is_byte data ->
  send_can_frame_full cmd_id motor_id data retry w =
  send_can_frame cmd_id motor_id data retry w.
Proof.
  intros Hbytes. unfold send_can_frame_full, send_can_frame, bind, get_master_id, lift.
  rewrite can_Message_bytes by exact Hbytes. reflexivity.
Qed.

(** X4. Given a payload of bytes, [send_can_frame] returns a boolean
    and raises nothing, whatever [retry] is and whether the bus accepts
    the frame or raises an [Exception]; it hands the bus one and the same
    extended-id frame, at most [retry] times and at least once if [retry]
    is positive; the frame is accepted exactly once if the answer is
    [True] and never if it is [False] (nothing is sent again after a
    success); [master_id] and [last_positions] are untouched.  Given a
    payload with a value outside 0..255, [can.Message] raises
    [ValueError] before the loop: nothing is sent and nothing changes. *)
Theorem send_can_frame_any_transport (cmd_id motor_id : Z) (data : list Z)
    (retry : option Z) (w : World B) :
  (Forall is_byte data ->
   exists (b : bool) (w' : World B) (k : nat),
     send_can_frame_full cmd_id motor_id data retry w = (Ok b, w') /\
     send_can_frame cmd_id motor_id data retry w = (Ok b, w') /\
     Z.of_nat k <= Z.max 0 (default 3 retry) /\
     (0 < default 3 retry -> (1 <= k)%nat) /\
     transmits (trace w') = transmits (trace w) ++
       replicate k (mkMessage (can_id cmd_id (master_id w) motor_id) data true) /\
     accepted (trace w') = (accepted (trace w) + if b then 1 else 0)%nat /\
     master_id w' = master_id w /\
     last_positions w' = last_positions w) /\
  (~ Forall is_byte data ->
   send_can_frame_full cmd_id motor_id data retry w =
   (Raise (ValueError "byte must be in range(0, 256)"), w)).
Proof.
  split.
  - intros Hbytes.
    destruct (send_can_frame_frames cmd_id motor_id data retry w)
      as (b & w' & k & Hrun & Hle & Hpos & Htr & Hm & Hl).
    exists b, w', k.
    split; [rewrite send_can_frame_full_bytes by exact Hbytes; exact Hrun|].
    repeat split; auto.
    unfold send_can_frame, bind, get_master_id in Hrun.
    destruct (send_attempts_accepted
                (mkMessage (can_id cmd_id (master_id w) motor_id) data true)
                (default 3 retry) (seqZ 0 (default 3 retry)) w)
      as (b2 & w2 & Hrun2 & Hacc).
    rewrite Hrun in Hrun2. injection Hrun2 as <- <-. exact Hacc.
  - intros Hbad. unfold send_can_frame_full, bind, get_master_id, lift.
    rewrite can_Message_not_bytes by exact Hbad. reflexivity.
Qed.

Lemma send_can_frame_accepted (cmd_id motor_id : Z) (data : list Z)
    (retry : option Z) (w : World B) :
  always_accepts ->
  0 < default 3 retry ->
  exists b' : B,
    send_can_frame cmd_id motor_id data retry w =
    (Ok true,
     mkWorld b' (master_id w) (last_positions w)
       (trace w ++ [Transmit (mkMessage (can_id cmd_id (master_id w) motor_id) data true) None;
                    Sleep 15])).
Proof.
  intros Hok Hr. unfold send_can_frame, bind, get_master_id.
  rewrite seqZ_cons by lia. cbn [send_attempts]. unfold bind at 1.
  rewrite send_attempt_eq. cbv zeta.
  set (msg := mkMessage _ _ _). specialize (Hok (bus w) msg).
  destruct (transmit (bus w) msg) as [b' err]. cbn [fst snd] in *. subst err.
  exists b'. reflexivity.
Qed.

Lemma send_can_frame_refused (cmd_id motor_id : Z) (data : list Z) (w : World B) :
  always_fails ->
  exists w' : World B, send_can_frame cmd_id motor_id data None w = (Ok false, w').
Proof.
  intros Hdead. unfold send_can_frame, bind, get_master_id.
  destruct (send_attempts_always_fails
              (mkMessage (can_id cmd_id (master_id w) motor_id) data true) 3 Hdead
              3 0 w eq_refl) as (w' & Hrun & _).
  exists w'. exact Hrun.
Qed.

(** X5. On a bus that accepts every frame, a send with at least one
    attempt is one call of [bus.send] and the 15 ms settle pause, and
    returns [True]. *)
Theorem send_can_frame_always_accepts (cmd_id motor_id : Z) (data : list Z)
    (retry : option Z) (w : World B) :
  always_accepts ->
  0 < default 3 retry ->
  exists b' : B,
    send_can_frame cmd_id motor_id data retry w =
    (Ok true,
     mkWorld b' (master_id w) (last_positions w)
       (trace w ++ [Transmit (mkMessage (can_id cmd_id (master_id w) motor_id) data true) None;
                    Sleep 15])).
Proof. apply send_can_frame_accepted. Qed.

(** X6. A send never blocks longer than 50 ms per attempt but the last
    plus the 15 ms settle pause: with the default three attempts, at most
    115 ms, whatever the bus does. *)
Theorem send_can_frame_sleep_bound (cmd_id motor_id : Z) (data : list Z)
    (retry : option Z) (w : World B) :
  0 < default 3 retry ->
  slept (trace w) <=
    slept (trace (send_can_frame cmd_id motor_id data retry w).2) <=
    slept (trace w) + 50 * (default 3 retry - 1) + 15.
Proof.
  intros Hr. unfold send_can_frame, bind, get_master_id.
  set (msg := mkMessage _ _ _).
  destruct (send_attempts_slept msg (default 3 retry)
              (Z.to_nat (default 3 retry) - 1) 0 w) as (b & w' & Hrun & Hs); [lia|].
  replace (Z.of_nat (S (Z.to_nat (default 3 retry) - 1))) with (default 3 retry)
    in Hrun by lia.
  rewrite Hrun. cbn [snd]. lia.
Qed.

End SendMore.

Lemma healthy_always_accepts : always_accepts (B := healthy).
Proof. intros b msg. reflexivity. Qed.

Lemma send_can_frame_always_accepts_witness :
  exists b' : healthy,
    send_can_frame 0x04 1 (replicate 8 0) None (init Healthy) =
    (Ok true,
     mkWorld b' 0x00FD ∅
       ([Output Connected] ++
        [Transmit (mkMessage (can_id 0x04 0x00FD 1) (replicate 8 0) true) None; Sleep 15])).
Proof.
  apply (send_can_frame_always_accepts 0x04 1 (replicate 8 0) None (init Healthy)
           healthy_always_accepts).
  simpl. lia.
Defined.

Lemma send_can_frame_sleep_bound_witness :
  slept (trace (init (Flaky 1))) <=
    slept (trace (send_can_frame 0x03 1 (replicate 8 0) None (init (Flaky 1))).2) <=
    slept (trace (init (Flaky 1))) + 50 * (3 - 1) + 15.
Proof.
  apply (send_can_frame_sleep_bound 0x03 1 (replicate 8 0) None (init (Flaky 1))).
  simpl. lia.
Defined.

(** A payload holding 256 never reaches the bus. *)
Lemma send_can_frame_any_transport_witness :
  send_can_frame_full 0x03 1 [256; 0; 0; 0; 0; 0; 0; 0] None (init Healthy) =
  (Raise (ValueError "byte must be in range(0, 256)"), init Healthy).
Proof.
  apply (send_can_frame_any_transport 0x03 1 [256; 0; 0; 0; 0; 0; 0; 0] None (init Healthy)).
  intros Hall. inversion Hall as [|? ? Hb _]. unfold is_byte in Hb. lia.
Defined.

(** ** Float writes: payload shape and overflow *)

Lemma le_bytes_bytes (w : Z) :
  length (Float.le_bytes w) = 4%nat /\ Forall is_byte (Float.le_bytes w).
Proof.
  split; [reflexivity|]. unfold Float.le_bytes, is_byte.
  repeat constructor; apply Z.mod_pos_bound; lia.
Qed.

Lemma pack_f_bytes (x : spec_float) (bs : list Z) :
  pack_f x = Ok bs -> length bs = 4%nat /\ Forall is_byte bs.
Proof.
  unfold pack_f. destruct (Float.is_inf _ && _); [discriminate|].
  intros [= <-]. apply le_bytes_bytes.
Qed.

(** Every payload that the methods pass to [send_can_frame] is a list of
    bytes, so [can.Message] accepts it and [send_can_frame_full] agrees
    with [send_can_frame] at every call of the class. *)
Lemma method_payloads_are_bytes :
  Forall is_byte (replicate 8 0x00) /\
  Forall is_byte ([0x01] ++ replicate 7 0x00) /\
  Forall is_byte [0x05; 0x70; 0x00; 0x00; 0x01; 0x00; 0x00; 0x00] /\
  forall (x : spec_float) (bs : list Z) (r : Z),
    is_byte r -> pack_f x = Ok bs -> Forall is_byte ([r; 0x70; 0x00; 0x00] ++ bs).
Proof.
  repeat split; try (repeat constructor; unfold is_byte; lia).
  intros x bs r Hr Hpack. destruct (pack_f_bytes x bs Hpack) as [_ Hbytes].
  apply Forall_app. split; [|exact Hbytes].
  repeat constructor; unfold is_byte in *; lia.
Qed.

Lemma pack_f_raises (x : spec_float) (e : exn) :
  pack_f x = Raise e -> e = OverflowError "float too large to pack with f format".
Proof.
  unfold pack_f. destruct (Float.is_inf _ && _); [|discriminate]. congruence.
Qed.

Section FloatWrites.
Context {B : Type} `{!Transport B}.

(** X7. Whatever float they are given, the three register writes hand
    the bus a payload of exactly eight values, each a byte. *)
Theorem float_write_payload (motor_id : Z) (x : spec_float) (bs : list Z) (w : World B) :
  pack_f x = Ok bs ->
  (exists (w' : World B) (payload : list Z),
     set_limit_speed motor_id x w = (Ok VNone, w') /\
     sent w w' (mkMessage (can_id 0x12 (master_id w) motor_id) payload true) /\
     length payload = 8%nat /\ Forall is_byte payload) /\
  (exists (w' : World B) (payload : list Z),
     set_limit_torque motor_id x w = (Ok VNone, w') /\
     sent w w' (mkMessage (can_id 0x12 (master_id w) motor_id) payload true) /\
     length payload = 8%nat /\ Forall is_byte payload) /\
  (exists (success : bool) (w' : World B) (payload : list Z),
     set_target_position motor_id x w = (Ok (VBool success), w') /\
     sent w w' (mkMessage (can_id 0x12 (master_id w) motor_id) payload true) /\
     length payload = 8%nat /\ Forall is_byte payload).
Proof.
  intros Hpack. destruct (pack_f_bytes x bs Hpack) as [Hlen Hbytes].
  assert (Hpre : forall r : Z, is_byte r ->
            length ([r; 0x70; 0x00; 0x00] ++ bs) = 8%nat /\
            Forall is_byte ([r; 0x70; 0x00; 0x00] ++ bs)).
  { intros r Hr. split; [rewrite length_app, Hlen; reflexivity|].
    apply Forall_app. split; [|exact Hbytes].
    repeat constructor; unfold is_byte in *; lia. }
  repeat split.
  - destruct (set_limit_speed_spec motor_id x bs w Hpack) as (w' & Hrun & Hsent & _).
    exists w', ([0x17; 0x70; 0x00; 0x00] ++ bs).
    destruct (Hpre 0x17) as [? ?]; [unfold is_byte; lia|]. auto.
  - destruct (set_limit_torque_spec motor_id x bs w Hpack) as (w' & Hrun & Hsent & _).
    exists w', ([0x18; 0x70; 0x00; 0x00] ++ bs).
    destruct (Hpre 0x18) as [? ?]; [unfold is_byte; lia|]. auto.
  - destruct (set_target_position_spec motor_id x bs w Hpack)
      as (b & w' & Hrun & _ & Hsent & _).
    exists b, w', ([0x16; 0x70; 0x00; 0x00] ++ bs).
    destruct (Hpre 0x16) as [? ?]; [unfold is_byte; lia|]. auto.
Qed.

(** X8. A float too large for binary32 makes each register write raise
    [OverflowError] before anything happens: no frame, no pause, no
    change of the cache. *)
Theorem float_write_overflow (motor_id : Z) (x : spec_float) (e : exn) (w : World B) :
  pack_f x = Raise e ->
  e = OverflowError "float too large to pack with f format" /\
  set_limit_speed motor_id x w = (Raise e, w) /\
  set_limit_torque motor_id x w = (Raise e, w) /\
  set_target_position motor_id x w = (Raise e, w).
Proof.
  intros Hpack. split; [exact (pack_f_raises x e Hpack)|].
  unfold set_limit_speed, set_limit_torque, set_target_position, bind, lift.
  rewrite Hpack. auto.
Qed.

End FloatWrites.

Lemma float_write_payload_witness :
  (exists (w' : World healthy) (payload : list Z),
     set_limit_speed 1 (Float.of_Z 2) (init Healthy) = (Ok VNone, w') /\
     sent (init Healthy) w' (mkMessage (can_id 0x12 0x00FD 1) payload true) /\
     length payload = 8%nat /\ Forall is_byte payload).
Proof.
  apply (float_write_payload 1 (Float.of_Z 2) [0; 0; 0; 0x40] (init Healthy)).
  reflexivity.
Defined.

(** 1e40 as the speed limit. *)
Lemma float_write_overflow_witness :
  set_limit_speed 1 (S754_finite false 8271806125530277 80) (init Healthy) =
  (Raise (OverflowError "float too large to pack with f format"), init Healthy).
Proof.
  apply (float_write_overflow 1 (S754_finite false 8271806125530277 80)
           (OverflowError "float too large to pack with f format") (init Healthy)).
  reflexivity.
Defined.

(** ** [move_to_degrees] in general *)

Section MoveFacts.
Context {B : Type} `{!Transport B}.

(** X9. When the three values fit binary32, [move_to_degrees] returns
    [None] after sending, in this order, the torque limit (0x7018), the
    speed limit (0x7017) and the target (0x7016) holding
    [math.radians(degrees)], each one to three times; a missing speed is
    5.0 and a missing torque 12.0.  The cache either keeps its content or
    gets the target at [motor_id]. *)
Theorem move_to_degrees_frames (motor_id : Z) (degrees : spec_float)
    (speed_rad_s torque_nm : option spec_float) (bt bv bp : list Z) (w : World B) :
  pack_f (default (Float.of_Z 12) torque_nm) = Ok bt ->
  pack_f (default (Float.of_Z 5) speed_rad_s) = Ok bv ->
  pack_f (Float.radians degrees) = Ok bp ->
  exists (w' : World B) (k1 k2 k3 : nat),
    move_to_degrees motor_id degrees speed_rad_s torque_nm w = (Ok VNone, w') /\
    (1 <= k1 <= 3 /\ 1 <= k2 <= 3 /\ 1 <= k3 <= 3)%nat /\
    transmits (trace w') =
      transmits (trace w) ++
      replicate k1 (mkMessage (can_id 0x12 (master_id w) motor_id)
                      ([0x18; 0x70; 0x00; 0x00] ++ bt) true) ++
      replicate k2 (mkMessage (can_id 0x12 (master_id w) motor_id)
                      ([0x17; 0x70; 0x00; 0x00] ++ bv) true) ++
      replicate k3 (mkMessage (can_id 0x12 (master_id w) motor_id)
                      ([0x16; 0x70; 0x00; 0x00] ++ bp) true) /\
    master_id w' = master_id w /\
    (last_positions w' = last_positions w \/
     last_positions w' = <[motor_id := Float.radians degrees]> (last_positions w)).
Proof.
  intros Ht Hv Hp.
  destruct (set_limit_torque_spec motor_id _ bt w Ht)
    as (w1 & Hrun1 & (k1 & Hk1 & Htr1) & Hm1 & Hl1).
  destruct (set_limit_speed_spec motor_id _ bv w1 Hv)
    as (w2 & Hrun2 & (k2 & Hk2 & Htr2) & Hm2 & Hl2).
  destruct (set_target_position_spec motor_id _ bp w2 Hp)
    as (b & w3 & Hrun3 & _ & (k3 & Hk3 & Htr3) & Hm3 & Hl3).
  exists w3, k1, k2, k3.
  unfold move_to_degrees, bind, ret. rewrite Hrun1, Hrun2, Hrun3.
  split; [reflexivity|]. split; [lia|]. split; [|split].
  - rewrite Htr3, Htr2, Htr1, Hm2, Hm1, <- !app_assoc. reflexivity.
  - congruence.
  - rewrite Hl3, Hl2, Hl1. destruct b; auto.
Qed.

(** X10. [move_to_degrees] has no rollback.  A torque that does not fit
    raises before anything is sent; a speed that does not fit raises
    after the torque limit has been sent; a target that does not fit
    raises after both limits have been sent.  The cache is unchanged in
    all three cases. *)
Theorem move_to_degrees_overflow (motor_id : Z) (degrees : spec_float)
    (speed_rad_s torque_nm : option spec_float) (e : exn) (w : World B) :
  (pack_f (default (Float.of_Z 12) torque_nm) = Raise e ->
   move_to_degrees motor_id degrees speed_rad_s torque_nm w = (Raise e, w)) /\
  (forall bt : list Z,
     pack_f (default (Float.of_Z 12) torque_nm) = Ok bt ->
     pack_f (default (Float.of_Z 5) speed_rad_s) = Raise e ->
     exists w' : World B,
       move_to_degrees motor_id degrees speed_rad_s torque_nm w = (Raise e, w') /\
       sent w w' (mkMessage (can_id 0x12 (master_id w) motor_id)
                    ([0x18; 0x70; 0x00; 0x00] ++ bt) true) /\
       last_positions w' = last_positions w) /\
  (forall bt bv : list Z,
     pack_f (default (Float.of_Z 12) torque_nm) = Ok bt ->
     pack_f (default (Float.of_Z 5) speed_rad_s) = Ok bv ->
     pack_f (Float.radians degrees) = Raise e ->
     exists (w' : World B) (k1 k2 : nat),
       move_to_degrees motor_id degrees speed_rad_s torque_nm w = (Raise e, w') /\
       (1 <= k1 <= 3 /\ 1 <= k2 <= 3)%nat /\
       transmits (trace w') =
         transmits (trace w) ++
         replicate k1 (mkMessage (can_id 0x12 (master_id w) motor_id)
                         ([0x18; 0x70; 0x00; 0x00] ++ bt) true) ++
         replicate k2 (mkMessage (can_id 0x12 (master_id w) motor_id)
                         ([0x17; 0x70; 0x00; 0x00] ++ bv) true) /\
       last_positions w' = last_positions w).
Proof.
  repeat split.
  - intros Ht. unfold move_to_degrees, bind at 1.
    destruct (float_write_overflow motor_id _ e w Ht) as (_ & _ & -> & _). reflexivity.
  - intros bt Ht Hv.
    destruct (set_limit_torque_spec motor_id _ bt w Ht)
      as (w1 & Hrun1 & Hsent1 & Hm1 & Hl1).
    exists w1. unfold move_to_degrees, bind at 1. rewrite Hrun1. unfold bind at 1.
    destruct (float_write_overflow motor_id _ e w1 Hv) as (_ & -> & _). auto.
  - intros bt bv Ht Hv Hp.
    destruct (set_limit_torque_spec motor_id _ bt w Ht)
      as (w1 & Hrun1 & (k1 & Hk1 & Htr1) & Hm1 & Hl1).
    destruct (set_limit_speed_spec motor_id _ bv w1 Hv)
      as (w2 & Hrun2 & (k2 & Hk2 & Htr2) & Hm2 & Hl2).
    exists w2, k1, k2. unfold move_to_degrees, bind at 1. rewrite Hrun1.
    unfold bind at 1. rewrite Hrun2. unfold bind at 1.
    destruct (float_write_overflow motor_id _ e w2 Hp) as (_ & _ & _ & ->).
    split; [reflexivity|]. split; [lia|]. split.
    + rewrite Htr2, Htr1, Hm1, <- !app_assoc. reflexivity.
    + congruence.
Qed.

End MoveFacts.

(** 30 degrees at the default limits. *)
Lemma move_to_degrees_frames_witness :
  exists (w' : World healthy) (k1 k2 k3 : nat),
    move_to_degrees 1 (Float.of_Z 30) None None (init Healthy) = (Ok VNone, w') /\
    (1 <= k1 <= 3 /\ 1 <= k2 <= 3 /\ 1 <= k3 <= 3)%nat /\
    transmits (trace w') =
      transmits (trace (init Healthy)) ++
      replicate k1 (mkMessage (can_id 0x12 0x00FD 1)
                      ([0x18; 0x70; 0x00; 0x00] ++ [0x00; 0x00; 0x40; 0x41]) true) ++
      replicate k2 (mkMessage (can_id 0x12 0x00FD 1)
                      ([0x17; 0x70; 0x00; 0x00] ++ [0x00; 0x00; 0xA0; 0x40]) true) ++
      replicate k3 (mkMessage (can_id 0x12 0x00FD 1)
                      ([0x16; 0x70; 0x00; 0x00] ++ [0x92; 0x0A; 0x06; 0x3F]) true) /\
    master_id w' = 0x00FD /\
    (last_positions w' = ∅ \/
     last_positions w' = <[1 := Float.radians (Float.of_Z 30)]> ∅).
Proof.
  apply (move_to_degrees_frames 1 (Float.of_Z 30) None None
           [0x00; 0x00; 0x40; 0x41] [0x00; 0x00; 0xA0; 0x40] [0x92; 0x0A; 0x06; 0x3F]
           (init Healthy)); reflexivity.
Defined.

(** A speed limit of 1e40: the torque limit goes out, then the call
    raises. *)
Lemma move_to_degrees_overflow_witness :
  exists w' : World healthy,
    move_to_degrees 1 (Float.of_Z 15) (Some (S754_finite false 8271806125530277 80)) None
      (init Healthy) =
      (Raise (OverflowError "float too large to pack with f format"), w') /\
    sent (init Healthy) w'
      (mkMessage (can_id 0x12 0x00FD 1)
         ([0x18; 0x70; 0x00; 0x00] ++ [0x00; 0x00; 0x40; 0x41]) true) /\
    last_positions w' = last_positions (init Healthy).
Proof.
  apply (move_to_degrees_overflow 1 (Float.of_Z 15)
           (Some (S754_finite false 8271806125530277 80)) None
           (OverflowError "float too large to pack with f format") (init Healthy));
    reflexivity.
Defined.

(** ** What the methods leave alone *)

Section Keeps.
Context {B : Type} `{!Transport B}.

Lemma keeps_ret {A : Type} (k : Z) (a : A) : keeps k (ret (B := B) a).
Proof. intros w. auto. Qed.

Lemma keeps_lift {A : Type} (k : Z) (r : result A) : keeps k (lift (B := B) r).
Proof. intros w. auto. Qed.

Lemma keeps_emit (k : Z) (ev : event) : keeps k (emit (B := B) ev).
Proof. intros w. auto. Qed.

Lemma keeps_set_last_position (k : Z) (x : spec_float) :
  keeps k (set_last_position (B := B) k x).
Proof.
  intros w. split; [reflexivity|]. intros j Hj.
  unfold set_last_position. cbn [snd last_positions].
  apply lookup_insert_ne. congruence.
Qed.

Lemma keeps_bind {A C : Type} (k : Z) (m : M B A) (f : A -> M B C) :
  keeps k m -> (forall a, keeps k (f a)) -> keeps k (bind m f).
Proof.
  intros Hm Hf w. unfold bind. specialize (Hm w).
  destruct (m w) as [[a|e] w1]; cbn [snd] in *; [|exact Hm].
  destruct Hm as [Hid Hlp]. destruct (Hf a w1) as [Hid' Hlp'].
  split; [congruence|]. intros j Hj. rewrite Hlp', Hlp by exact Hj. reflexivity.
Qed.

Lemma keeps_send_can_frame (k cmd_id motor_id : Z) (data : list Z) (retry : option Z) :
  keeps k (send_can_frame cmd_id motor_id data retry).
Proof.
  intros w.
  destruct (send_can_frame_frames cmd_id motor_id data retry w)
    as (b & w' & n & -> & _ & _ & _ & Hm & Hl).
  cbn [snd]. rewrite Hl. auto.
Qed.

Create HintDb keeps.
#[local] Hint Resolve keeps_ret keeps_lift keeps_emit keeps_set_last_position
  keeps_send_can_frame : keeps.

Ltac keeps_steps :=
  repeat first
    [ solve [unfold sleep, print; auto with keeps]
    | match goal with |- keeps _ (if ?b then _ else _) => destruct b end
    | apply keeps_bind; [|intros ?] ].

(** A method that never writes the cache keeps it at every key. *)
Lemma keeps_all_keys {A : Type} (m : M B A) (w : World B) :
  (forall k : Z, keeps k m) -> last_positions (m w).2 = last_positions w.
Proof.
  intros Hk. apply map_eq. intros j.
  destruct (Hk (j + 1) w) as [_ Hlp]. apply Hlp. lia.
Qed.

(** X11. No method ever changes [master_id], whether it returns or
    raises.  [enable_motor], [disable_motor], [stop_motor],
    [set_position_control_mode], [set_limit_speed] and [set_limit_torque]
    never change [last_positions]; [reset_position],
    [set_target_position] and [move_to_degrees] change it at most at the
    key [motor_id]. *)
Theorem methods_keep_attributes (motor_id : Z) (x degrees : spec_float)
    (speed torque : option spec_float) (w : World B) :
  (master_id (enable_motor motor_id w).2 = master_id w /\
   last_positions (enable_motor motor_id w).2 = last_positions w) /\
  (master_id (disable_motor motor_id w).2 = master_id w /\
   last_positions (disable_motor motor_id w).2 = last_positions w) /\
  (master_id (stop_motor motor_id w).2 = master_id w /\
   last_positions (stop_motor motor_id w).2 = last_positions w) /\
  (master_id (set_position_control_mode motor_id w).2 = master_id w /\
   last_positions (set_position_control_mode motor_id w).2 = last_positions w) /\
  (master_id (set_limit_speed motor_id x w).2 = master_id w /\
   last_positions (set_limit_speed motor_id x w).2 = last_positions w) /\
  (master_id (set_limit_torque motor_id x w).2 = master_id w /\
   last_positions (set_limit_torque motor_id x w).2 = last_positions w) /\
  keeps motor_id (reset_position motor_id) /\
  keeps motor_id (set_target_position motor_id x) /\
  keeps motor_id (move_to_degrees motor_id degrees speed torque).
Proof.
  assert (Hen : forall k, keeps k (enable_motor motor_id))
    by (intros k; unfold enable_motor; keeps_steps).
  assert (Hdis : forall k, keeps k (disable_motor motor_id))
    by (intros k; unfold disable_motor; keeps_steps).
  assert (Hstop : forall k, keeps k (stop_motor motor_id))
    by (intros k; unfold stop_motor; keeps_steps).
  assert (Hmode : forall k, keeps k (set_position_control_mode motor_id))
    by (intros k; unfold set_position_control_mode; keeps_steps).
  assert (Hspeed : forall y k, keeps k (set_limit_speed motor_id y))
    by (intros y k; unfold set_limit_speed; keeps_steps).
  assert (Htorque : forall y k, keeps k (set_limit_torque motor_id y))
    by (intros y k; unfold set_limit_torque; keeps_steps).
  assert (Htarget : forall y, keeps motor_id (set_target_position motor_id y))
    by (intros y; unfold set_target_position; keeps_steps).
  repeat apply conj;
    try (apply keeps_all_keys; auto);
    try (match goal with |- master_id (?m w).2 = _ =>
           assert (Hk : keeps 0 m) by auto; apply (Hk w) end).
  - unfold reset_position; keeps_steps.
  - apply Htarget.
  - unfold move_to_degrees.
    apply keeps_bind; [apply Htorque|intros ?].
    apply keeps_bind; [apply Hspeed|intros ?].
    apply keeps_bind; [apply Htarget|intros ?]. apply keeps_ret.
Qed.

End Keeps.

(** ** More on the arbitration id *)

(** X12. With a command id below 32 (all five opcodes are), a
    controller address of 16 bits and a motor address of 8 bits, the
    arbitration id is a 29-bit extended identifier. *)
Theorem can_id_29_bits (cmd_id master_id motor_id : Z) :
  0 <= cmd_id < 2 ^ 5 -> 0 <= master_id < 2 ^ 16 -> 0 <= motor_id < 2 ^ 8 ->
  0 <= can_id cmd_id master_id motor_id < 2 ^ 29.
Proof.
  intros Hc Hm Ht. unfold can_id.
  assert (H1 : 0 <= Z.shiftl cmd_id 24 <= 31 * 2 ^ 24)
    by (rewrite Z.shiftl_mul_pow2 by lia; lia).
  assert (H2 : 0 <= Z.shiftl master_id 8 <= (2 ^ 16 - 1) * 2 ^ 8)
    by (rewrite Z.shiftl_mul_pow2 by lia; lia).
  set (a := Z.shiftl cmd_id 24) in *. set (b := Z.shiftl master_id 8) in *.
  pose proof (Z.add_lor_land a b) as Hab.
  assert (0 <= Z.land a b) by (apply Z.land_nonneg; lia).
  assert (0 <= Z.lor a b) by (apply Z.lor_nonneg; lia).
  pose proof (Z.add_lor_land (Z.lor a b) motor_id) as Habt.
  assert (0 <= Z.land (Z.lor a b) motor_id) by (apply Z.land_nonneg; lia).
  assert (0 <= Z.lor (Z.lor a b) motor_id) by (apply Z.lor_nonneg; lia).
  lia.
Qed.

Lemma can_id_29_bits_witness : 0 <= can_id 0x12 0x00FD 127 < 2 ^ 29.
Proof. apply can_id_29_bits; lia. Defined.

(** X13. [motor_id] is not range-checked: the bits of a motor address
    above the low eight are or-ed into the controller-address field, so
    the frame is the one of another controller address. *)
Theorem can_id_wide_motor_id (cmd_id master_id motor_id : Z) :
  0 <= cmd_id < 2 ^ 8 -> 0 <= master_id < 2 ^ 16 -> 0 <= motor_id < 2 ^ 24 ->
  can_id cmd_id master_id motor_id =
    can_id cmd_id (Z.lor master_id (Z.shiftr motor_id 8)) (Z.land motor_id 0xFF) /\
  decode_can_id (can_id cmd_id master_id motor_id) =
    (cmd_id, Z.lor master_id (Z.shiftr motor_id 8), Z.land motor_id 0xFF).
Proof.
  intros Hc Hm Ht.
  assert (Hsplit : motor_id = Z.lor (Z.shiftl (Z.shiftr motor_id 8) 8) (Z.land motor_id 0xFF)).
  { change 0xFF with (Z.ones 8). rewrite <- Z.ldiff_ones_r by lia.
    rewrite Z.lor_ldiff_and. reflexivity. }
  assert (Halias : can_id cmd_id master_id motor_id =
            can_id cmd_id (Z.lor master_id (Z.shiftr motor_id 8)) (Z.land motor_id 0xFF)).
  { unfold can_id. rewrite Hsplit at 1.
    rewrite Z.shiftl_lor, !Z.lor_assoc. reflexivity. }
  split; [exact Halias|]. rewrite Halias.
  assert (Hhi : 0 <= Z.shiftr motor_id 8 < 2 ^ 16).
  { rewrite Z.shiftr_div_pow2 by lia. split; [apply Z.div_pos; lia|].
    apply Z.div_lt_upper_bound; lia. }
  assert (Hlo : 0 <= Z.land motor_id 0xFF < 2 ^ 8).
  { change 0xFF with (Z.ones 8). rewrite Z.land_ones by lia.
    apply Z.mod_pos_bound. lia. }
  assert (Hor : 0 <= Z.lor master_id (Z.shiftr motor_id 8) < 2 ^ 16).
  { split; [apply Z.lor_nonneg; lia|].
    destruct (Z.eq_dec (Z.lor master_id (Z.shiftr motor_id 8)) 0) as [->|Hnz]; [lia|].
    apply Z.log2_lt_pow2; [pose proof (proj2 (Z.lor_nonneg master_id (Z.shiftr motor_id 8))); lia|].
    rewrite Z.log2_lor by lia.
    apply Z.max_lub_lt.
    - destruct (Z.eq_dec master_id 0) as [->|?]; [simpl; lia|].
      apply Z.log2_lt_pow2; lia.
    - destruct (Z.eq_dec (Z.shiftr motor_id 8) 0) as [->|?]; [simpl; lia|].
      apply Z.log2_lt_pow2; lia. }
  set (m' := Z.lor master_id (Z.shiftr motor_id 8)) in *.
  set (t' := Z.land motor_id 0xFF) in *.
  unfold decode_can_id, can_id.
  change 0xFF with (Z.ones 8). change 0xFFFF with (Z.ones 16).
  replace (Z.lor (Z.shiftl cmd_id 24) (Z.shiftl m' 8))
    with (Z.shiftl (Z.lor (Z.shiftl cmd_id 16) m') 8)
    by (rewrite Z.shiftl_lor, Z.shiftl_shiftl by lia; reflexivity).
  destruct (field_disjoint (Z.lor (Z.shiftl cmd_id 16) m') t' 8) as [H1 H2]; [lia | lia |].
  destruct (field_disjoint cmd_id m' 16) as [H3 H4]; [lia | lia |].
  rewrite H2. replace 24 with (8 + 16) by lia.
  rewrite <- (Z.shiftr_shiftr _ 8 16) by lia.
  rewrite H1, H3, H4, Z.land_ones, Z.mod_small by lia. reflexivity.
Qed.

(** Motor address 0x201 under controller address 0x00FD goes out as
    motor address 0x01 under controller address 0x00FF. *)
Lemma can_id_wide_motor_id_witness :
  can_id 0x03 0x00FD 0x201 = can_id 0x03 0x00FF 0x01 /\
  decode_can_id (can_id 0x03 0x00FD 0x201) = (0x03, 0x00FF, 0x01).
Proof. apply (can_id_wide_motor_id 0x03 0x00FD 0x201); lia. Defined.

(** ** The demonstration script *)

Lemma outline_app (l1 l2 : list script_event) :
  outline (l1 ++ l2) = outline l1 ++ outline l2.
Proof.
  induction l1 as [|ev l1 IH]; [reflexivity|].
  destruct ev as [[]| | |]; simpl; rewrite IH; reflexivity.
Qed.

Lemma outline_device (t : list event) :
  outline (map Device t) = map Sent (transmits t).
Proof.
  induction t as [|ev t IH]; [reflexivity|].
  destruct ev; simpl; rewrite IH; reflexivity.
Qed.

Lemma sent_count_app (p1 p2 : list mark) :
  sent_count (p1 ++ p2) = (sent_count p1 + sent_count p2)%nat.
Proof.
  induction p1 as [|x p1 IH]; [reflexivity|].
  destruct x; simpl; rewrite IH; reflexivity.
Qed.

Lemma repeat_sent_app (p1 p2 : list mark) :
  forall ks1 ks2 : list nat,
    length ks1 = sent_count p1 ->
    repeat_sent (ks1 ++ ks2) (p1 ++ p2) = repeat_sent ks1 p1 ++ repeat_sent ks2 p2.
Proof.
  induction p1 as [|x p1 IH]; intros ks1 ks2 Hlen.
  - destruct ks1; [reflexivity | discriminate].
  - destruct x; cbn [sent_count] in Hlen; cbn [repeat_sent app];
      try (rewrite IH by exact Hlen; reflexivity).
    destruct ks1 as [|k ks1]; [discriminate|]. cbn [app].
    rewrite IH by (simpl in Hlen; lia). rewrite <- app_assoc. reflexivity.
Qed.

Lemma repeat_sent_frames (frames : list Message) :
  forall ks : list nat,
    length ks = length frames ->
    repeat_sent ks (map Sent frames) = map Sent (concat (zip_with replicate ks frames)).
Proof.
  induction frames as [|msg frames IH]; intros ks Hlen.
  - destruct ks; reflexivity.
  - destruct ks as [|k ks]; [discriminate|]. cbn.
    rewrite IH by (simpl in Hlen; lia).
    rewrite map_app. f_equal.
    clear. induction k as [|k IHk]; [reflexivity|].
    cbn [replicate map]. rewrite IHk. reflexivity.
Qed.

Lemma sent_count_frames (frames : list Message) :
  sent_count (map Sent frames) = length frames.
Proof. induction frames; simpl; congruence. Qed.

Lemma Forall_eq_replicate (c : nat) (ks : list nat) :
  Forall (fun k => k = c) ks -> ks = replicate (length ks) c.
Proof. induction 1; simpl; congruence. Qed.

Lemma repeat_sent_no_frames (p q : list mark) (ks : list nat) :
  sent_count p = 0%nat -> repeat_sent ks (p ++ q) = p ++ repeat_sent ks q.
Proof.
  induction p as [|x p IH]; intros Hp; [reflexivity|].
  destruct x; try discriminate; cbn [app repeat_sent]; rewrite IH by exact Hp;
    reflexivity.
Qed.

Section ScriptFacts.
Context {B : Type} `{!Transport B} `{!Shutdown B}.
Variable P : nat -> Prop.

(** How often one send with the default number of attempts hands its
    frame to the bus. *)
Hypothesis Hsend : forall (cmd_id motor_id : Z) (payload : list Z),
  sends P (send_can_frame (B := B) cmd_id motor_id payload None)
    [mkMessage (can_id cmd_id 0x00FD motor_id) payload true].

Lemma sends_ret {A : Type} (a : A) : sends P (ret (B := B) a) [].
Proof.
  intros w Hm. exists a, w, []. repeat split; auto.
  simpl. rewrite app_nil_r. reflexivity.
Qed.

Lemma sends_emit (ev : event) :
  transmits [ev] = [] -> sends P (emit (B := B) ev) [].
Proof.
  intros Hev w Hm. eexists tt, _, []. split; [reflexivity|].
  repeat split; auto. cbn [trace]. rewrite transmits_app, Hev. reflexivity.
Qed.

Lemma sends_set_last_position (motor_id : Z) (x : spec_float) :
  sends P (set_last_position (B := B) motor_id x) [].
Proof.
  intros w Hm. eexists tt, _, []. split; [reflexivity|].
  repeat split; auto. simpl. rewrite app_nil_r. reflexivity.
Qed.

Lemma sends_bind {A C : Type} (m : M B A) (f : A -> M B C) (fr1 fr2 : list Message) :
  sends P m fr1 -> (forall a, sends P (f a) fr2) -> sends P (bind m f) (fr1 ++ fr2).
Proof.
  intros Hm Hf w Hw.
  destruct (Hm w Hw) as (a & w1 & ks1 & Hrun1 & Hw1 & Hlen1 & HP1 & Htr1).
  destruct (Hf a w1 Hw1) as (c & w2 & ks2 & Hrun2 & Hw2 & Hlen2 & HP2 & Htr2).
  exists c, w2, (ks1 ++ ks2). unfold bind. rewrite Hrun1, Hrun2.
  split; [reflexivity|]. split; [exact Hw2|].
  split; [rewrite !length_app; lia|]. split; [apply Forall_app; auto|].
  rewrite Htr2, Htr1, zip_with_app, concat_app, <- app_assoc by exact Hlen1.
  reflexivity.
Qed.

Lemma sends_lift_bind {A C : Type} (r : result A) (a : A) (f : A -> M B C)
    (frames : list Message) :
  r = Ok a -> sends P (f a) frames -> sends P (bind (lift r) f) frames.
Proof. intros -> Hf. exact Hf. Qed.

Lemma sends_eq {A : Type} (m : M B A) (fr fr' : list Message) :
  sends P m fr -> fr = fr' -> sends P m fr'.
Proof. intros H <-. exact H. Qed.

Ltac sends_steps :=
  repeat first
    [ apply Hsend
    | apply sends_ret
    | apply sends_set_last_position
    | apply sends_emit; reflexivity
    | eapply sends_lift_bind; [reflexivity|]
    | match goal with |- sends _ (if ?b then _ else _) _ => destruct b end
    | eapply sends_bind; [|intros ?] ].

Lemma enable_motor_sends : sends P (enable_motor MOTOR_ID) [enable_frame].
Proof.
  eapply sends_eq; [unfold enable_motor, sleep, print; sends_steps | reflexivity].
Qed.

Lemma disable_motor_sends : sends P (disable_motor MOTOR_ID) [disable_frame].
Proof.
  eapply sends_eq; [unfold disable_motor, sleep, print; sends_steps | reflexivity].
Qed.

Lemma stop_motor_sends : sends P (stop_motor MOTOR_ID) [stop_frame].
Proof.
  eapply sends_eq; [unfold stop_motor, sleep, print; sends_steps | reflexivity].
Qed.

Lemma reset_position_sends : sends P (reset_position MOTOR_ID) [reset_frame].
Proof.
  eapply sends_eq; [unfold reset_position, sleep, print; sends_steps | reflexivity].
Qed.

Lemma set_position_control_mode_sends :
  sends P (set_position_control_mode MOTOR_ID) [mode_frame].
Proof.
  eapply sends_eq;
    [unfold set_position_control_mode, sleep, print; sends_steps | reflexivity].
Qed.

Lemma move_to_degrees_sends_plan (degrees : spec_float) (value : list Z) :
  pack_f (Float.radians degrees) = Ok value ->
  sends P (move_to_degrees MOTOR_ID degrees (Some SPEED) (Some MAX_TORQUE))
    [torque_frame; speed_frame; target_frame value].
Proof.
  intros Hpack.
  eapply sends_eq.
  - unfold move_to_degrees, set_limit_torque, set_limit_speed, set_target_position,
      sleep, print.
    eapply sends_bind; [sends_steps | intros ?].
    eapply sends_bind; [sends_steps | intros ?].
    eapply sends_bind; [|intros ?; apply sends_ret].
    eapply sends_lift_bind; [exact Hpack|]. sends_steps.
  - reflexivity.
Qed.

Lemma plays_sret {A : Type} (a : A) : plays P (sret (B := B) a) [].
Proof.
  intros s w Hs Hw. exists a, s, w, []. repeat split; auto.
  simpl. rewrite app_nil_r. reflexivity.
Qed.

Lemma plays_record (evs : list script_event) :
  sent_count (outline evs) = 0%nat ->
  repeat_sent [] (outline evs) = outline evs ->
  plays P (record (B := B) evs) (outline evs).
Proof.
  intros Hcount Hplan s w Hs Hw. eexists tt, _, w, []. split; [reflexivity|].
  repeat split; auto. cbn [log]. rewrite outline_app, Hplan. reflexivity.
Qed.

Lemma plays_say (l : script_line) : plays P (say (B := B) l) [Said l].
Proof. apply (plays_record [Say l]); reflexivity. Qed.

Lemma plays_pause (ms : Z) : plays P (pause (B := B) ms) [].
Proof. apply (plays_record [Device (Sleep ms)]); reflexivity. Qed.

Lemma plays_call {A : Type} (m : M B A) (frames : list Message) :
  sends P m frames -> plays P (call m) (map Sent frames).
Proof.
  intros Hm s w Hs Hw.
  destruct (Hm (mkWorld (bus w) (master_id w) (last_positions w) []) Hw)
    as (a & w' & ks & Hrun & Hw' & Hlen & HP & Htr).
  exists a, (mkSession (Some w') (log s ++ map Device (trace w'))), w', ks.
  unfold call. rewrite Hs, Hrun. split; [reflexivity|]. split; [reflexivity|].
  split; [exact Hw'|]. split; [rewrite sent_count_frames; exact Hlen|].
  split; [exact HP|].
  cbn [log]. rewrite outline_app, outline_device, Htr, repeat_sent_frames by exact Hlen.
  reflexivity.
Qed.

Lemma plays_bind {A C : Type} (p : Script B A) (f : A -> Script B C)
    (plan1 plan2 : list mark) :
  plays P p plan1 -> (forall a, plays P (f a) plan2) ->
  plays P (sbind p f) (plan1 ++ plan2).
Proof.
  intros Hp Hf s w Hs Hw.
  destruct (Hp s w Hs Hw) as (a & s1 & w1 & ks1 & Hrun1 & Hs1 & Hw1 & Hlen1 & HP1 & Hout1).
  destruct (Hf a s1 w1 Hs1 Hw1)
    as (c & s2 & w2 & ks2 & Hrun2 & Hs2 & Hw2 & Hlen2 & HP2 & Hout2).
  exists c, s2, w2, (ks1 ++ ks2). unfold sbind. rewrite Hrun1, Hrun2.
  split; [reflexivity|]. split; [exact Hs2|]. split; [exact Hw2|].
  split; [rewrite length_app, sent_count_app; lia|]. split; [apply Forall_app; auto|].
  rewrite Hout2, Hout1, repeat_sent_app, <- app_assoc by exact Hlen1. reflexivity.
Qed.

Lemma plays_stry {A : Type} (body : Script B A) (handler : exn -> Script B A)
    (plan : list mark) :
  plays P body plan -> plays P (stry body handler) plan.
Proof.
  intros Hb s w Hs Hw. destruct (Hb s w Hs Hw) as (a & s' & w' & ks & Hrun & Hrest).
  exists a, s', w', ks. unfold stry. rewrite Hrun. auto.
Qed.

Lemma plays_eq {A : Type} (p : Script B A) (plan plan' : list mark) :
  plays P p plan -> plan = plan' -> plays P p plan'.
Proof. intros Hp <-. exact Hp. Qed.

Ltac plays_steps :=
  repeat first
    [ apply plays_say
    | apply plays_pause
    | apply plays_sret
    | eapply plays_call;
      first [ apply enable_motor_sends | apply disable_motor_sends
            | apply stop_motor_sends | apply reset_position_sends
            | apply set_position_control_mode_sends
            | eapply move_to_degrees_sends_plan; reflexivity ]
    | eapply plays_bind; [|intros ?] ].

(** The [try] block after the constructor never raises. *)
Lemma test_sequence_plays : plays P test_sequence test_plan.
Proof.
  eapply plays_eq; [unfold test_sequence; plays_steps | reflexivity].
Qed.

(** [close] and the line after it, inside the [try] of the shutdown:
    what is printed depends on [bus.shutdown()]. *)
Lemma close_settles :
  settles P
    (stry (sbind close (fun _ => say ShutdownCompleted))
       (fun shutdown_error => say (ShutdownError (str shutdown_error))))
    shutdown_tail.
Proof.
  intros s w Hs Hw. unfold stry, sbind, close. rewrite Hs.
  destruct (shutdown (bus w)) as [b' err] eqn:Hsd.
  assert (Herr : (shutdown (bus w)).2 = err) by (rewrite Hsd; reflexivity).
  destruct err as [e|].
  - eexists tt, _, _, [], (bus w). rewrite Herr.
    split; [reflexivity|]. split; [reflexivity|]. split; [exact Hw|].
    split; [reflexivity|]. split; [constructor|].
    cbn [log]. rewrite !outline_app. rewrite <- app_assoc. reflexivity.
  - eexists tt, _, _, [], (bus w). rewrite Herr.
    split; [reflexivity|]. split; [reflexivity|]. split; [exact Hw|].
    split; [reflexivity|]. split; [constructor|].
    cbn [log]. rewrite !outline_app. rewrite <- !app_assoc. reflexivity.
Qed.

Lemma settles_stry_bind {A C : Type} (p : Script B A) (f : A -> Script B C)
    (handler : exn -> Script B C) (plan1 : list mark) (plan2 : option exn -> list mark) :
  plays P p plan1 ->
  (forall a, settles P (stry (f a) handler) plan2) ->
  settles P (stry (sbind p f) handler) (fun err => plan1 ++ plan2 err).
Proof.
  intros Hp Hf s w Hs Hw.
  destruct (Hp s w Hs Hw) as (a & s1 & w1 & ks1 & Hrun1 & Hs1 & Hw1 & Hlen1 & HP1 & Hout1).
  destruct (Hf a s1 w1 Hs1 Hw1)
    as (c & s2 & w2 & ks2 & b & Hrun2 & Hs2 & Hw2 & Hlen2 & HP2 & Hout2).
  exists c, s2, w2, (ks1 ++ ks2), b.
  unfold stry, sbind in *. rewrite Hrun1.
  split; [exact Hrun2|]. split; [exact Hs2|]. split; [exact Hw2|].
  split; [rewrite length_app, sent_count_app; lia|]. split; [apply Forall_app; auto|].
  rewrite Hout2, Hout1, repeat_sent_app, <- app_assoc by exact Hlen1. reflexivity.
Qed.

Lemma settles_eq {A : Type} (p : Script B A) (plan plan' : option exn -> list mark) :
  settles P p plan -> (forall err, plan err = plan' err) -> settles P p plan'.
Proof.
  intros Hp Heq s w Hs Hw.
  destruct (Hp s w Hs Hw) as (a & s' & w' & ks & b & Hrest).
  exists a, s', w', ks, b. rewrite <- Heq. exact Hrest.
Qed.

(** The shutdown always returns: an exception of [bus.shutdown()] is
    caught and printed. *)
Lemma shutdown_sequence_settles :
  settles P shutdown_sequence (fun err => stop_plan ++ shutdown_tail err).
Proof.
  eapply settles_eq.
  - unfold shutdown_sequence.
    apply settles_stry_bind; [apply plays_say | intros ?].
    apply settles_stry_bind; [eapply plays_call; apply stop_motor_sends | intros ?].
    apply settles_stry_bind; [apply plays_pause | intros ?].
    apply settles_stry_bind; [eapply plays_call; apply disable_motor_sends | intros ?].
    apply settles_stry_bind; [apply plays_pause | intros ?].
    apply close_settles.
  - intros err. reflexivity.
Qed.

(** [main] once the constructor has the bus [b0]. *)
Lemma main_outline (b0 : B) :
  exists (s : Session B) (ks : list nat) (b : B),
    main (inl b0) = (Ok tt, s) /\
    length ks = 17%nat /\
    Forall P ks /\
    outline (log s) = repeat_sent ks (main_plan (shutdown b).2).
Proof.
  set (s2 := mkSession (Some (init b0)) (([] ++ header) ++ map Device (trace (init b0)))).
  destruct (test_sequence_plays s2 (init b0) eq_refl eq_refl)
    as ([] & s3 & w3 & ks1 & Hrun1 & Hs3 & Hw3 & Hlen1 & HP1 & Hout1).
  destruct (shutdown_sequence_settles s3 w3 Hs3 Hw3)
    as ([] & s4 & w4 & ks2 & b & Hrun2 & Hs4 & Hw4 & Hlen2 & HP2 & Hout2).
  exists (mkSession (motor s4) (log s4 ++ footer)), (ks1 ++ ks2), b.
  split; [|split; [|split]].
  - unfold main. unfold sbind at 1. cbn [record].
    unfold sfinally, stry.
    match goal with |- context [sbind (construct (inl b0)) ?f ?s0] =>
      change (sbind (construct (inl b0)) f s0) with (test_sequence s2) end.
    rewrite Hrun1. unfold sbind, motor_is_set. rewrite Hs3, Hrun2. reflexivity.
  - rewrite length_app, Hlen1, Hlen2. destruct ((shutdown b).2); reflexivity.
  - apply Forall_app. auto.
  - cbn [log]. rewrite outline_app, Hout2, Hout1. unfold main_plan.
    rewrite (repeat_sent_no_frames (outline header)) by reflexivity.
    rewrite (repeat_sent_app test_plan _ ks1 ks2) by exact Hlen1.
    rewrite (app_assoc stop_plan).
    replace (repeat_sent ks2 ((stop_plan ++ shutdown_tail (shutdown b).2) ++ outline footer))
      with (repeat_sent ks2 (stop_plan ++ shutdown_tail (shutdown b).2) ++ outline footer).
    + rewrite <- !app_assoc. reflexivity.
    + rewrite <- (app_nil_r ks2) at 2.
      rewrite (repeat_sent_app (stop_plan ++ shutdown_tail (shutdown b).2) (outline footer)
                 ks2 []) by exact Hlen2.
      reflexivity.
Qed.

End ScriptFacts.

Section ScriptOnTransports.
Context {B : Type} `{!Transport B} `{!Shutdown B}.

Lemma send_can_frame_sends_any (cmd_id motor_id : Z) (payload : list Z) :
  sends (fun k => 1 <= k <= 3)%nat (send_can_frame (B := B) cmd_id motor_id payload None)
    [mkMessage (can_id cmd_id 0x00FD motor_id) payload true].
Proof.
  intros w Hw.
  destruct (send_can_frame_default cmd_id motor_id payload w)
    as (b & w' & Hrun & (k & Hk & Htr) & Hm & _).
  exists b, w', [k]. rewrite Hw in *.
  repeat split; auto. cbn. rewrite app_nil_r. exact Htr.
Qed.

Lemma send_can_frame_sends_once (cmd_id motor_id : Z) (payload : list Z) :
  always_accepts ->
  sends (fun k => k = 1%nat) (send_can_frame (B := B) cmd_id motor_id payload None)
    [mkMessage (can_id cmd_id 0x00FD motor_id) payload true].
Proof.
  intros Hok w Hw. unfold send_can_frame, bind, get_master_id.
  change (default 3 None) with 3. rewrite seqZ_cons by lia.
  cbn [send_attempts]. unfold bind at 1. rewrite send_attempt_eq. cbv zeta.
  rewrite Hw. set (msg := mkMessage _ _ _). specialize (Hok (bus w) msg).
  destruct (transmit (bus w) msg) as [b' err]. cbn [fst snd] in *. subst err.
  eexists true, _, [1%nat]. unfold ret. split; [reflexivity|].
  cbn [master_id trace]. rewrite transmits_app. repeat split; auto.
Qed.

Lemma send_can_frame_sends_thrice (cmd_id motor_id : Z) (payload : list Z) :
  always_fails ->
  sends (fun k => k = 3%nat) (send_can_frame (B := B) cmd_id motor_id payload None)
    [mkMessage (can_id cmd_id 0x00FD motor_id) payload true].
Proof.
  intros Hdead w Hw.
  destruct (send_can_frame_default cmd_id motor_id payload w)
    as (b & w' & Hrun & (k & Hk & Htr) & Hm & _).
  assert (Hthree : k = 3%nat).
  { unfold send_can_frame, bind, get_master_id in Hrun.
    destruct (send_attempts_always_fails
                (mkMessage (can_id cmd_id (master_id w) motor_id) payload true) 3 Hdead
                3 0 w eq_refl) as (w2 & Hrun2 & Hcount).
    change (default 3 None) with 3 in Hrun. change (Z.of_nat 3) with 3 in Hrun2.
    rewrite Hrun in Hrun2. injection Hrun2 as _ <-.
    rewrite Htr, length_app, length_replicate in Hcount. lia. }
  exists b, w', [k]. rewrite Hw in *.
  repeat split; auto. cbn. rewrite app_nil_r. exact Htr.
Qed.


Lemma repeat_sent_once (err : option exn) :
  repeat_sent (replicate 17 1%nat) (main_plan err) = main_plan err.
Proof. destruct err; reflexivity. Qed.



Lemma repeat_sent_closed (plan : list mark) :
  forall ks : list nat, In Closed (repeat_sent ks plan) -> In Closed plan.
Proof.
  induction plan as [|x plan IH]; intros ks Hin; [exact Hin|].
  destruct x; cbn [repeat_sent] in Hin.
  - destruct ks as [|k ks]; [contradiction|].
    apply in_app_or in Hin as [Hin|Hin].
    + exfalso. clear -Hin. induction k; simpl in Hin; [exact Hin|].
      destruct Hin as [Hin|Hin]; [discriminate | auto].
    + right. eapply IH. exact Hin.
  - destruct Hin as [Hin|Hin]; [discriminate|]. right. eapply IH. exact Hin.
  - destruct Hin as [Hin|Hin]; [discriminate|]. right. eapply IH. exact Hin.
  - left. reflexivity.
Qed.


End ScriptOnTransports.

Lemma healthy_shutdown_returns : shutdown_returns (B := healthy).
Proof. intros b. reflexivity. Qed.



Example main_on_dead_bus_tail :
  drop 71 (outline (log (main (inl Dead)).2)) =
  [Closed; Said (ShutdownError "bus off"); Said RuleAbove; Said ProgramEnded; Said RulePlain].
Proof. reflexivity. Qed.

(** ** The cache and the bus *)

Section CacheFacts.
Context {B : Type} `{!Transport B}.

(** X18. On a bus that accepts every frame the cache follows the
    commands: after [set_target_position] it holds the target at
    [motor_id], and after [move_to_degrees] it holds
    [math.radians(degrees)] there. *)
Theorem cache_on_accepting_bus (motor_id : Z) (x degrees : spec_float)
    (speed_rad_s torque_nm : option spec_float) (w : World B) :
  always_accepts ->
  (forall bs : list Z,
     pack_f x = Ok bs ->
     exists w' : World B,
       set_target_position motor_id x w = (Ok (VBool true), w') /\
       last_positions w' = <[motor_id := x]> (last_positions w) /\
       last_positions w' !! motor_id = Some x) /\
  (forall bt bv bp : list Z,
     pack_f (default (Float.of_Z 12) torque_nm) = Ok bt ->
     pack_f (default (Float.of_Z 5) speed_rad_s) = Ok bv ->
     pack_f (Float.radians degrees) = Ok bp ->
     exists w' : World B,
       move_to_degrees motor_id degrees speed_rad_s torque_nm w = (Ok VNone, w') /\
       last_positions w' = <[motor_id := Float.radians degrees]> (last_positions w) /\
       last_positions w' !! motor_id = Some (Float.radians degrees)).
Proof.
  intros Hok.
  assert (Htarget : forall (y : spec_float) (bs : list Z) (w0 : World B),
            pack_f y = Ok bs ->
            exists w' : World B,
              set_target_position motor_id y w0 = (Ok (VBool true), w') /\
              last_positions w' = <[motor_id := y]> (last_positions w0)).
  { intros y bs w0 Hpack.
    destruct (set_target_position_spec motor_id y bs w0 Hpack)
      as (success & w' & Hrun & Hsend & _ & _ & Hl).
    destruct (send_can_frame_accepted 0x12 motor_id ([0x16; 0x70; 0; 0] ++ bs) None w0 Hok)
      as (b' & Hacc); [reflexivity|].
    rewrite Hacc in Hsend. cbn [fst] in Hsend. injection Hsend as <-.
    exists w'. auto. }
  split.
  - intros bs Hpack. destruct (Htarget x bs w Hpack) as (w' & Hrun & Hl).
    exists w'. repeat split; auto. rewrite Hl. apply lookup_insert_eq.
  - intros bt bv bp Ht Hv Hp.
    destruct (set_limit_torque_spec motor_id _ bt w Ht) as (w1 & Hrun1 & _ & _ & Hl1).
    destruct (set_limit_speed_spec motor_id _ bv w1 Hv) as (w2 & Hrun2 & _ & _ & Hl2).
    destruct (Htarget _ bp w2 Hp) as (w3 & Hrun3 & Hl3).
    exists w3. unfold move_to_degrees, bind, ret. rewrite Hrun1, Hrun2, Hrun3.
    split; [reflexivity|]. rewrite Hl3, Hl2, Hl1.
    split; [reflexivity | apply lookup_insert_eq].
Qed.

(** X19. On a bus that refuses every frame the cache never follows a
    target: [set_target_position] returns [False] and [move_to_degrees]
    returns [None], both with [last_positions] as it was. *)
Theorem cache_on_refusing_bus (motor_id : Z) (x degrees : spec_float)
    (speed_rad_s torque_nm : option spec_float) (w : World B) :
  always_fails ->
  (forall bs : list Z,
     pack_f x = Ok bs ->
     exists w' : World B,
       set_target_position motor_id x w = (Ok (VBool false), w') /\
       last_positions w' = last_positions w) /\
  (forall bt bv bp : list Z,
     pack_f (default (Float.of_Z 12) torque_nm) = Ok bt ->
     pack_f (default (Float.of_Z 5) speed_rad_s) = Ok bv ->
     pack_f (Float.radians degrees) = Ok bp ->
     exists w' : World B,
       move_to_degrees motor_id degrees speed_rad_s torque_nm w = (Ok VNone, w') /\
       last_positions w' = last_positions w).
Proof.
  intros Hdead.
  assert (Htarget : forall (y : spec_float) (bs : list Z) (w0 : World B),
            pack_f y = Ok bs ->
            exists w' : World B,
              set_target_position motor_id y w0 = (Ok (VBool false), w') /\
              last_positions w' = last_positions w0).
  { intros y bs w0 Hpack.
    destruct (set_target_position_spec motor_id y bs w0 Hpack)
      as (success & w' & Hrun & Hsend & _ & _ & Hl).
    destruct (send_can_frame_refused 0x12 motor_id ([0x16; 0x70; 0; 0] ++ bs) w0 Hdead)
      as (w2 & Hrej).
    rewrite Hrej in Hsend. cbn [fst] in Hsend. injection Hsend as <-.
    exists w'. auto. }
  split.
  - intros bs Hpack. exact (Htarget x bs w Hpack).
  - intros bt bv bp Ht Hv Hp.
    destruct (set_limit_torque_spec motor_id _ bt w Ht) as (w1 & Hrun1 & _ & _ & Hl1).
    destruct (set_limit_speed_spec motor_id _ bv w1 Hv) as (w2 & Hrun2 & _ & _ & Hl2).
    destruct (Htarget _ bp w2 Hp) as (w3 & Hrun3 & Hl3).
    exists w3. unfold move_to_degrees, bind, ret. rewrite Hrun1, Hrun2, Hrun3.
    split; [reflexivity|]. congruence.
Qed.

End CacheFacts.

Lemma cache_on_accepting_bus_witness :
  exists w' : World healthy,
    move_to_degrees 1 (Float.of_Z 30) None None (init Healthy) = (Ok VNone, w') /\
    last_positions w' = <[1 := Float.radians (Float.of_Z 30)]> (last_positions (init Healthy)) /\
    last_positions w' !! 1 = Some (Float.radians (Float.of_Z 30)).
Proof.
  apply (proj2 (cache_on_accepting_bus 1 (Float.of_Z 30) (Float.of_Z 30) None None
                  (init Healthy) healthy_always_accepts)
           [0x00; 0x00; 0x40; 0x41] [0x00; 0x00; 0xA0; 0x40] [0x92; 0x0A; 0x06; 0x3F]);
    reflexivity.
Defined.

Lemma cache_on_refusing_bus_witness :
  exists w' : World dead,
    set_target_position 1 (Float.of_Z 12) (init Dead) = (Ok (VBool false), w') /\
    last_positions w' = last_positions (init Dead).
Proof.
  apply (proj1 (cache_on_refusing_bus 1 (Float.of_Z 12) (Float.of_Z 0) None None
                  (init Dead) dead_always_fails) [0; 0; 0x40; 0x41]).
  reflexivity.
Defined.

Lemma send_can_frame_no_attempts_witness :
  send_can_frame 0x03 1 (replicate 8 0) (Some 0) (init Healthy) = (Ok false, init Healthy).
Proof. apply send_can_frame_no_attempts. lia. Defined.
